(** * drm_gralloc: buffer objects, the handle registry and the lock engine

    A shallow embedding of [gralloc_drm.cpp] and [gralloc.cpp].

    Conventions of the model.
    - Pointers are addresses in [Z]; [0] is [NULL].  The structs the code
      reaches through pointers live in finite maps keyed by address.
    - C [int] is 32 bits wide and [size_t] 64; an [int] counter is a [Z] with its
      wrap-around written out ([wrap_int]), an [unsigned] one likewise
      ([wrap_uint]).  Bit masks are kept as their bit pattern and combined
      with [Z.land] and [Z.lor].
    - Everything outside the two files (the hardware backend behind
      [drm->drv], the KMS helpers, libdrm, the C library) is a [platform]:
      each external function is a deterministic function of the history of
      external calls made so far, and every such call is recorded in the
      [calls] of the world, latest first.  A backend never writes the fields
      of [gralloc_drm_bo_t] that the two files maintain.
    - Dereferencing [NULL], or an address where no struct lives, is [Fault].
    - The pthread mutexes and the log macros are not part of the model. *)

From stdpp Require Import gmap strings list fin_maps.
From Stdlib Require Import ZArith Lia.

#[local] Open Scope Z_scope.

(** ** Machine integers *)

Definition wrap_int (z : Z) : Z := (z + 2 ^ 31) mod 2 ^ 32 - 2 ^ 31.
Definition wrap_uint (z : Z) : Z := z mod 2 ^ 32.
Definition wrap_size_t (z : Z) : Z := z mod 2 ^ 64.
Definition INT_MAX : Z := 2 ^ 31 - 1.
Definition UINT_MAX : Z := 2 ^ 32 - 1.

(** ** Constants of the Android headers *)

Definition EINVAL : Z := 22.
Definition ENOMEM : Z := 12.

Definition GRALLOC_USAGE_SW_READ_OFTEN : Z := 0x3.
Definition GRALLOC_USAGE_SW_READ_MASK : Z := 0xF.
Definition GRALLOC_USAGE_SW_WRITE_MASK : Z := 0xF0.
Definition GRALLOC_USAGE_HW_TEXTURE : Z := 0x100.
Definition GRALLOC_USAGE_HW_FB : Z := 0x1000.
Definition GRALLOC_USAGE_HW_VIDEO_ENCODER : Z := 0x10000.

Definition HAL_PIXEL_FORMAT_YCbCr_420_888 : Z := 0x23.

(** ** Structs *)

(** Modelled from the spec: the header that declares the buffer handle is not
    among the sources.  These are the fields of the spec's BufferDescriptor
    (geometry, pixel format, usage flags, and the backend identity: a local
    allocation name or an external memory reference), under the names the
    two files use. *)
Record gralloc_drm_handle_t : Type := Handle {
  h_width : Z;
  h_height : Z;
  h_format : Z;
  h_usage : Z;
  h_name : Z;
  h_prime_fd : Z;
  h_stride : Z
}.

(** Modelled from the spec: gralloc_drm_priv.h, which declares the struct, is
    not among the sources.  These are the fields of the spec's BufferObject
    (descriptor, device context, refcount, imported, lock_count, locked_for,
    display surface id), under the names the two files use. *)
Record gralloc_drm_bo_t : Type := Bo {
  bo_drm : Z;        (* struct gralloc_drm_t *drm *)
  bo_handle : Z;     (* struct gralloc_drm_handle_t *handle *)
  imported : Z;
  fb_id : Z;
  lock_count : Z;
  locked_for : Z;
  refcount : Z
}.

Record android_ycbcr : Type := Ycbcr {
  yc_y : Z;
  yc_cb : Z;
  yc_cr : Z;
  yc_ystride : Z;
  yc_cstride : Z;
  yc_chroma_step : Z
}.

(** ** External calls *)

Inductive call : Type :=
| drv_alloc_call (handle : Z)
| drv_free_call (bo : Z)
| drv_map_call (bo x y w h write : Z)
| drv_unmap_call (bo : Z)
| rm_fb_call (bo : Z)
| need_fb_call (bo : Z)
| add_fb_call (bo : Z)
| init_kms_call (drm : Z)
| handle_create_call (width height format usage : Z)
| delete_handle_call (handle : Z)
| read_proc_fb_call
| drmOpen_call (name : string)
| drmGetVersion_call (fd : Z)
| drv_create_call (backend : string) (fd : Z)
| close_call (fd : Z)
| new_drm_call
| delete_drm_call (drm : Z).

(** ** The world *)

Record world : Type := World {
  drm_bo_handle_map : gmap Z Z;       (* buffer_handle_t -> gralloc_drm_bo_t* *)
  bos : gmap Z gralloc_drm_bo_t;      (* the live gralloc_drm_bo_t structs *)
  handles : gmap Z gralloc_drm_handle_t;
  dmod_drm : Z;                       (* HAL_MODULE_INFO_SYM.drm *)
  calls : list call
}.

Definition with_bos (f : gmap Z gralloc_drm_bo_t → gmap Z gralloc_drm_bo_t)
    (w : world) : world :=
  World (drm_bo_handle_map w) (f (bos w)) (handles w) (dmod_drm w) (calls w).

Definition with_handles
    (f : gmap Z gralloc_drm_handle_t → gmap Z gralloc_drm_handle_t)
    (w : world) : world :=
  World (drm_bo_handle_map w) (bos w) (f (handles w)) (dmod_drm w) (calls w).

Definition with_dmod_drm (d : Z) (w : world) : world :=
  World (drm_bo_handle_map w) (bos w) (handles w) d (calls w).

Definition with_call (c : call) (w : world) : world :=
  World (drm_bo_handle_map w) (bos w) (handles w) (dmod_drm w) (c :: calls w).

(** ** The monad: state, and [Fault] for undefined behaviour *)

Inductive outcome (A : Type) : Type :=
| Done (a : A) (w : world)
| Fault.
Arguments Done {A} a w.
Arguments Fault {A}.

Definition M (A : Type) : Type := world → outcome A.

Definition ret {A} (a : A) : M A := fun w => Done a w.

Definition bind {A B} (m : M A) (k : A → M B) : M B :=
  fun w => match m w with
           | Done a w' => k a w'
           | Fault => Fault
           end.

Definition fault {A} : M A := fun _ => Fault.

Notation "x <- m ;; k" := (bind m (fun x => k))
  (at level 100, m at next level, right associativity).

Definition get_calls : M (list call) := fun w => Done (calls w) w.
Definition get_registry : M (gmap Z Z) := fun w => Done (drm_bo_handle_map w) w.
Definition get_dmod_drm : M Z := fun w => Done (dmod_drm w) w.
Definition set_dmod_drm (d : Z) : M unit := fun w => Done tt (with_dmod_drm d w).
Definition emit (c : call) : M unit := fun w => Done tt (with_call c w).

Definition load_bo (bo : Z) : M gralloc_drm_bo_t :=
  fun w => match bos w !! bo with
           | Some B => Done B w
           | None => Fault
           end.

Definition store_bo (bo : Z) (B : gralloc_drm_bo_t) : M unit :=
  fun w => match bos w !! bo with
           | Some _ => Done tt (with_bos (insert bo B) w)
           | None => Fault
           end.

Definition load_handle (handle : Z) : M gralloc_drm_handle_t :=
  fun w => match handles w !! handle with
           | Some H => Done H w
           | None => Fault
           end.

(** A struct comes to life at an address, or leaves it. *)
Definition new_bo (bo : Z) (B : gralloc_drm_bo_t) : M unit :=
  fun w => Done tt (with_bos (insert bo B) w).
Definition free_bo (bo : Z) : M unit :=
  fun w => Done tt (with_bos (delete bo) w).
Definition put_handle (handle : Z) (H : gralloc_drm_handle_t) : M unit :=
  fun w => Done tt (with_handles (insert handle H) w).
Definition drop_handle (handle : Z) : M unit :=
  fun w => Done tt (with_handles (delete handle) w).

(** [p->...] through a pointer that must not be [NULL]. *)
Definition deref (p : Z) : M unit :=
  if p =? 0 then fault else ret tt.

(** ** The platform *)

Record platform : Type := Platform {
  (* drv->alloc(drv, handle): NULL, or the address of a new bo, the struct as
     the backend filled it and the handle as the backend left it *)
  drv_alloc : list call → Z → gralloc_drm_handle_t →
              option (Z * gralloc_drm_bo_t * gralloc_drm_handle_t);
  (* drv->map(drv, bo, x, y, w, h, write, addr): the error code, and what
     *addr holds afterwards, given what it held before *)
  drv_map : list call → Z → Z → Z → Z → Z → Z → Z → Z * Z;
  gralloc_drm_bo_need_fb : list call → Z → Z;
  gralloc_drm_bo_add_fb : list call → Z → Z;
  gralloc_drm_init_kms : list call → Z → Z;
  (* gralloc_handle_create(width, height, format, usage): NULL, or the
     address of the new handle and the struct as created *)
  gralloc_handle_create : list call → Z → Z → Z → Z →
                          option (Z * gralloc_drm_handle_t);
  gralloc_drm_get_bpp : Z → Z;
  (* fscanf(fb, "%u %s", &card, buf) on /proc/fb: the two items when both
     were read *)
  proc_fb : list call → option (Z * string);
  drmOpen : list call → string → Z;
  (* drmGetVersion(fd): NULL, or a version whose name may be NULL *)
  drmGetVersion : list call → Z → option (option string);
  gralloc_drm_drv_create : list call → string → Z → string → Z;
  ENABLE_FREEDRENO : bool;
  ENABLE_INTEL : bool;
  ENABLE_RADEON : bool;
  ENABLE_NOUVEAU : bool;
  ENABLE_PIPE : bool;
  (* new gralloc_drm_t: the address, and the indeterminate content of its
     drv field *)
  new_gralloc_drm : list call → Z * Z
}.

Inductive op : Type := Register | Unregister.

(** ** The lock engine (gralloc_drm_bo_lock, gralloc_drm_bo_unlock)

    gralloc.cpp repeats the two functions of gralloc_drm.cpp word for word;
    one embedding stands for both. *)

Definition sw_access_mask : Z :=
  Z.lor GRALLOC_USAGE_SW_WRITE_MASK GRALLOC_USAGE_SW_READ_MASK.

Definition fb_special_mask : Z :=
  Z.lor (Z.lor (Z.lor GRALLOC_USAGE_SW_READ_OFTEN GRALLOC_USAGE_HW_FB)
               GRALLOC_USAGE_HW_TEXTURE)
        GRALLOC_USAGE_HW_VIDEO_ENCODER.

(** [(bo->handle->usage & usage) != usage], and none of the special flags. *)
Definition usage_mismatch (declared usage : Z) : bool :=
  negb (Z.land declared usage =? usage) &&
  (Z.land declared fb_special_mask =? 0).

(** [bo->lock_count && (bo->locked_for & usage) != usage] *)
Definition lock_conflict (B : gralloc_drm_bo_t) (usage : Z) : bool :=
  negb (lock_count B =? 0) && negb (Z.land (locked_for B) usage =? usage).

(** [!!(usage & GRALLOC_USAGE_SW_WRITE_MASK)] *)
Definition write_flag (usage : Z) : Z :=
  if Z.land usage GRALLOC_USAGE_SW_WRITE_MASK =? 0 then 0 else 1.

Definition set_lock_state (lc lf : Z) (B : gralloc_drm_bo_t) : gralloc_drm_bo_t :=
  Bo (bo_drm B) (bo_handle B) (imported B) (fb_id B) lc lf (refcount B).

Definition set_refcount (r : Z) (B : gralloc_drm_bo_t) : gralloc_drm_bo_t :=
  Bo (bo_drm B) (bo_handle B) (imported B) (fb_id B)
     (lock_count B) (locked_for B) r.

Section Gralloc.

Variable P : platform.

(** [bo->drm->drv->map(bo->drm->drv, bo, x, y, w, h, write, addr)] *)
Definition call_map (B : gralloc_drm_bo_t) (bo x y w h write addr : Z)
    : M (Z * Z) :=
  _ <- deref (bo_drm B) ;;
  tr <- get_calls ;;
  _ <- emit (drv_map_call bo x y w h write) ;;
  ret (drv_map P tr bo x y w h write addr).

(** [bo->lock_count++; bo->locked_for |= usage; return 0;] *)
Definition lock_commit (B : gralloc_drm_bo_t) (bo usage addr : Z) : M (Z * Z) :=
  _ <- store_bo bo (set_lock_state (wrap_int (lock_count B + 1))
                                   (Z.lor (locked_for B) usage) B) ;;
  ret (0, addr).

(** Returns the error code and the content of [*addr]. *)
Definition gralloc_drm_bo_lock (bo usage x y w h addr : Z) : M (Z * Z) :=
  B <- load_bo bo ;;
  H <- load_handle (bo_handle B) ;;
  if usage_mismatch (h_usage H) usage then ret (- EINVAL, addr)
  else if lock_conflict B usage then ret (- EINVAL, addr)
  else
    let usage := Z.lor usage (locked_for B) in
    if negb (Z.land usage sw_access_mask =? 0) then
      let write := write_flag usage in
      r <- call_map B bo x y w h write addr ;;
      if negb (r.1 =? 0) then ret r
      else lock_commit B bo usage r.2
    else lock_commit B bo usage addr.

Definition gralloc_drm_bo_unlock (bo : Z) : M unit :=
  B <- load_bo bo ;;
  let mapped := Z.land (locked_for B) sw_access_mask in
  if lock_count B =? 0 then ret tt
  else
    _ <- (if negb (mapped =? 0) then
            _ <- deref (bo_drm B) ;; emit (drv_unmap_call bo)
          else ret tt) ;;
    let lc := wrap_int (lock_count B - 1) in
    store_bo bo (set_lock_state lc (if lc =? 0 then 0 else locked_for B) B).

(** ** The handle registry and the bo life cycle (gralloc_drm.cpp) *)

(** [gralloc_handle] of libdrm's android/gralloc_handle.h is a cast. *)
Definition gralloc_handle (_handle : Z) : Z := _handle.

Definition validate_handle (_handle drm : Z) : M Z :=
  reg <- get_registry ;;
  match reg !! _handle with
  | Some bo => ret bo
  | None =>
    (* check only *)
    if drm =? 0 then ret 0
    else
      let handle := gralloc_handle _handle in
      if handle =? 0 then ret 0
      else
        H <- load_handle handle ;;
        if negb (h_name H =? 0) || (0 <=? h_prime_fd H) then
          tr <- get_calls ;;
          _ <- emit (drv_alloc_call handle) ;;
          match drv_alloc P tr handle H with
          | None => fault                     (* bo->drm = drm with bo NULL *)
          | Some (bo, B, H') =>
            _ <- put_handle handle H' ;;
            _ <- new_bo bo (Bo drm handle 1 (fb_id B)
                               (lock_count B) (locked_for B) 1) ;;
            ret bo
          end
        else ret 0
  end.

Definition gralloc_drm_handle_register (handle drm : Z) : M Z :=
  bo <- validate_handle handle drm ;;
  if bo =? 0 then ret (- EINVAL)
  else
    B <- load_bo bo ;;
    _ <- store_bo bo (set_refcount (wrap_uint (refcount B + 1)) B) ;;
    ret 0.

(** The backend's free releases the struct: the function keeps [handle] and
    [imported] in locals before the call. *)
Definition gralloc_drm_bo_destroy (bo : Z) : M unit :=
  B <- load_bo bo ;;
  let handle := bo_handle B in
  let imported := imported B in
  if negb (refcount B =? 0) then ret tt
  else
    _ <- emit (rm_fb_call bo) ;;
    _ <- deref (bo_drm B) ;;
    _ <- emit (drv_free_call bo) ;;
    _ <- free_bo bo ;;
    if imported =? 0 then
      _ <- emit (delete_handle_call handle) ;; drop_handle handle
    else ret tt.

Definition gralloc_drm_bo_decref (bo : Z) : M unit :=
  B <- load_bo bo ;;
  let r := wrap_uint (refcount B - 1) in
  _ <- store_bo bo (set_refcount r B) ;;
  if r =? 0 then gralloc_drm_bo_destroy bo else ret tt.

Definition gralloc_drm_handle_unregister (handle : Z) : M Z :=
  bo <- validate_handle handle 0 ;;
  if bo =? 0 then ret (- EINVAL)
  else
    _ <- gralloc_drm_bo_decref bo ;;
    B <- load_bo bo ;;
    _ <- (if negb (imported B =? 0) then gralloc_drm_bo_decref bo
          else ret tt) ;;
    ret 0.

Definition gralloc_drm_bo_create (drm width height format usage : Z) : M Z :=
  tr <- get_calls ;;
  _ <- emit (handle_create_call width height format usage) ;;
  match gralloc_handle_create P tr width height format usage with
  | None => ret 0
  | Some (_handle, H) =>
    let handle := gralloc_handle _handle in
    if handle =? 0 then ret 0
    else
      _ <- put_handle handle H ;;
      _ <- deref drm ;;
      tr <- get_calls ;;
      _ <- emit (drv_alloc_call handle) ;;
      match drv_alloc P tr handle H with
      | None =>
        _ <- emit (delete_handle_call handle) ;;
        _ <- drop_handle handle ;;
        ret 0
      | Some (bo, B, H') =>
        _ <- put_handle handle H' ;;
        _ <- new_bo bo (Bo drm handle 0 0 (lock_count B) (locked_for B) 1) ;;
        ret bo
      end
  end.

Definition gralloc_drm_bo_from_handle (handle : Z) : M Z :=
  validate_handle handle 0.

(** Returns the buffer handle and the content of [*stride]. *)
Definition gralloc_drm_bo_get_handle (bo : Z) : M (Z * Z) :=
  B <- load_bo bo ;;
  H <- load_handle (bo_handle B) ;;
  ret (bo_handle B, h_stride H).

(** ** Creating the device (gralloc_drm.cpp) *)

Definition call_drv_create (backend : string) (fd : Z) (name : string) : M Z :=
  tr <- get_calls ;;
  _ <- emit (drv_create_call backend fd) ;;
  ret (gralloc_drm_drv_create P tr backend fd name).

Definition init_drv_from_fd (fd : Z) : M Z :=
  tr <- get_calls ;;
  _ <- emit (drmGetVersion_call fd) ;;
  match drmGetVersion P tr fd with
  | None => ret 0                                   (* invalid DRM fd *)
  | Some None => ret 0
  | Some (Some name) =>
    if ENABLE_FREEDRENO P && String.eqb name "msm" then
      call_drv_create "freedreno" fd name
    else if ENABLE_INTEL P && String.eqb name "i915" then
      call_drv_create "intel" fd name
    else if ENABLE_RADEON P && String.eqb name "radeon" then
      call_drv_create "radeon" fd name
    else if ENABLE_NOUVEAU P && String.eqb name "nouveau" then
      call_drv_create "nouveau" fd name
    else if ENABLE_PIPE P then
      call_drv_create "pipe" fd name
    else ret 0
  end.

Definition fbdrv_map : list (string * string) :=
  [ ("amdgpudrmfb", "amdgpu");
    ("inteldrmfb", "i915");
    ("nouveaufb", "nouveau");
    ("radeondrmfb", "radeon");
    ("svgadrmfb", "vmwgfx");
    ("virtiodrmfb", "virtio_gpu") ]%string.

(** The loop over [fbdrv_map]: the driver of the first entry whose
    framebuffer name is [buf]. *)
Fixpoint fbdrv_lookup (buf : string) (table : list (string * string))
    : option string :=
  match table with
  | [] => None
  | (fb, drv) :: rest =>
    if String.eqb buf fb then Some drv else fbdrv_lookup buf rest
  end.

Definition gralloc_drm_create : M Z :=
  tr <- get_calls ;;
  _ <- emit read_proc_fb_call ;;
  match proc_fb P tr with
  | None => ret 0                                   (* ret != 2 *)
  | Some (_, buf) =>
    tr <- get_calls ;;
    _ <- emit new_drm_call ;;
    let drm := (new_gralloc_drm P tr).1 in
    let drv0 := (new_gralloc_drm P tr).2 in
    if drm =? 0 then ret 0
    else
      fd <- match fbdrv_lookup buf fbdrv_map with
            | Some name =>
              tr <- get_calls ;;
              _ <- emit (drmOpen_call name) ;;
              ret (drmOpen P tr name)
            | None => ret (-1)
            end ;;
      drv <- (if fd <? 0 then ret drv0 else init_drv_from_fd fd) ;;
      if drv =? 0 then
        _ <- emit (close_call fd) ;;
        _ <- emit (delete_drm_call drm) ;;
        ret 0
      else ret drm
  end.

(** ** The module entry points (gralloc.cpp) *)

Definition drm_init (kms : Z) : M Z :=
  drm0 <- get_dmod_drm ;;
  err <- (if drm0 =? 0 then
            drm <- gralloc_drm_create ;;
            _ <- set_dmod_drm drm ;;
            ret (if drm =? 0 then - EINVAL else 0)
          else ret 0) ;;
  if (err =? 0) && negb (kms =? 0) then
    drm <- get_dmod_drm ;;
    tr <- get_calls ;;
    _ <- emit (init_kms_call drm) ;;
    ret (gralloc_drm_init_kms P tr drm)
  else ret err.

Definition drm_mod_register_buffer (handle : Z) : M Z :=
  err <- drm_init 0 ;;
  if negb (err =? 0) then ret err
  else
    drm <- get_dmod_drm ;;
    gralloc_drm_handle_register handle drm.

Definition drm_mod_unregister_buffer (handle : Z) : M Z :=
  gralloc_drm_handle_unregister handle.

(** Returns the error code and the content of [*ptr]. *)
Definition drm_mod_lock (handle usage x y w h ptr : Z) : M (Z * Z) :=
  bo <- gralloc_drm_bo_from_handle handle ;;
  if bo =? 0 then ret (- EINVAL, ptr)
  else gralloc_drm_bo_lock bo (wrap_uint usage) x y w h ptr.

(** Returns the error code and the content of [*ycbcr]; [ptr] is the
    indeterminate initial content of the local [ptr]. *)
Definition drm_mod_lock_ycbcr (bhandle usage x y w h : Z)
    (ycbcr : android_ycbcr) (ptr : Z) : M (Z * android_ycbcr) :=
  bo <- gralloc_drm_bo_from_handle bhandle ;;
  if bo =? 0 then ret (- EINVAL, ycbcr)
  else
    B <- load_bo bo ;;
    let handle := bo_handle B in
    H <- load_handle handle ;;
    if negb (h_format H =? HAL_PIXEL_FORMAT_YCbCr_420_888) then
      ret (- EINVAL, ycbcr)
    else
      r <- gralloc_drm_bo_lock bo (wrap_uint usage) x y w h ptr ;;
      if negb (r.1 =? 0) then ret (r.1, ycbcr)
      else
        H <- load_handle handle ;;
        if h_format H =? HAL_PIXEL_FORMAT_YCbCr_420_888 then
          let ptr := r.2 in
          let cb := ptr + wrap_int (h_stride H * h_height H) in
          ret (0, Ycbcr ptr cb (cb + 1)
                        (wrap_size_t (h_stride H)) (wrap_size_t (h_stride H)) 2)
        else ret (0, ycbcr).

Definition drm_mod_unlock (handle : Z) : M Z :=
  bo <- gralloc_drm_bo_from_handle handle ;;
  if bo =? 0 then ret (- EINVAL)
  else
    _ <- gralloc_drm_bo_unlock bo ;;
    ret 0.

Definition drm_mod_free_gpu0 (handle : Z) : M Z :=
  bo <- gralloc_drm_bo_from_handle handle ;;
  if bo =? 0 then ret (- EINVAL)
  else
    _ <- gralloc_drm_bo_decref bo ;;
    ret 0.

(** Returns the error code and the contents of [*handle] and [*stride]. *)
Definition drm_mod_alloc_gpu0 (w h format usage : Z) (handle stride : Z)
    : M (Z * Z * Z) :=
  let bpp := gralloc_drm_get_bpp P format in
  if bpp =? 0 then ret (- EINVAL, handle, stride)
  else
    drm <- get_dmod_drm ;;
    bo <- gralloc_drm_bo_create drm w h format usage ;;
    if bo =? 0 then ret (- ENOMEM, handle, stride)
    else
      tr <- get_calls ;;
      _ <- emit (need_fb_call bo) ;;
      err <- (if negb (gralloc_drm_bo_need_fb P tr bo =? 0) then
                tr <- get_calls ;;
                _ <- emit (add_fb_call bo) ;;
                ret (gralloc_drm_bo_add_fb P tr bo)
              else ret 0) ;;
      if negb (err =? 0) then
        _ <- gralloc_drm_bo_decref bo ;;
        ret (err, handle, stride)
      else
        hs <- gralloc_drm_bo_get_handle bo ;;
        (* in pixels *)
        ret (0, hs.1, wrap_int (Z.quot hs.2 bpp)).

(** ** Sequences of register and unregister calls on one handle *)

Definition run_op (handle drm : Z) (o : op) : M Z :=
  match o with
  | Register => gralloc_drm_handle_register handle drm
  | Unregister => gralloc_drm_handle_unregister handle
  end.

(** Runs the calls in order; the result lists the return codes. *)
Fixpoint run_ops (handle drm : Z) (ops : list op) : M (list Z) :=
  match ops with
  | [] => ret []
  | o :: rest =>
    r <- run_op handle drm o ;;
    rs <- run_ops handle drm rest ;;
    ret (r :: rs)
  end.

(** A lock immediately followed by an unlock. *)
Definition lock_then_unlock (bo usage x y w h addr : Z) : M (Z * Z) :=
  r <- gralloc_drm_bo_lock bo usage x y w h addr ;;
  _ <- gralloc_drm_bo_unlock bo ;;
  ret r.

End Gralloc.

(** ** Bookkeeping used in the statements *)

(** What one unregister takes off the count: one, and one more for an
    imported bo. *)
Definition unregister_step (B : gralloc_drm_bo_t) : Z :=
  if imported B =? 0 then 1 else 2.

(** The count after a sequence that starts at [r]. *)
Fixpoint count_after (d r : Z) (ops : list op) : Z :=
  match ops with
  | [] => r
  | Register :: rest => count_after d (r + 1) rest
  | Unregister :: rest => count_after d (r - d) rest
  end.

(** No unregister of the sequence brings the count to zero or below. *)
Fixpoint stays_referenced (d r : Z) (ops : list op) : bool :=
  match ops with
  | [] => true
  | Register :: rest => stays_referenced d (r + 1) rest
  | Unregister :: rest => (d <? r) && stays_referenced d (r - d) rest
  end.

Fixpoint registers (ops : list op) : Z :=
  match ops with
  | [] => 0
  | Register :: rest => 1 + registers rest
  | Unregister :: rest => registers rest
  end.

Fixpoint unregisters (ops : list op) : Z :=
  match ops with
  | [] => 0
  | Register :: rest => unregisters rest
  | Unregister :: rest => 1 + unregisters rest
  end.

(** The count as the specification gives it: one, plus the registers that
    found an entry, minus the unregisters. *)
Definition spec_refcount (found unregistered : Z) : Z :=
  1 + found - unregistered.

(** The declared usage shares a bit with one of the four special flags
    (the C test [usage & FLAG]). *)
Definition declared_special (declared : Z) : Prop :=
  Z.land declared GRALLOC_USAGE_SW_READ_OFTEN ≠ 0 ∨
  Z.land declared GRALLOC_USAGE_HW_FB ≠ 0 ∨
  Z.land declared GRALLOC_USAGE_HW_TEXTURE ≠ 0 ∨
  Z.land declared GRALLOC_USAGE_HW_VIDEO_ENCODER ≠ 0.

(** [w1] is [w] after some external calls and nothing else. *)
Definition after_calls (w w1 : world) : Prop :=
  drm_bo_handle_map w1 = drm_bo_handle_map w ∧
  bos w1 = bos w ∧
  handles w1 = handles w ∧
  dmod_drm w1 = dmod_drm w ∧
  calls w `suffix_of` calls w1.

(** [m] returns from every world, and only makes external calls. *)
Definition only_calls {A} (m : M A) : Prop :=
  ∀ w, ∃ a w1, m w = Done a w1 ∧ after_calls w w1.

(** [m] leaves the registry as it found it. *)
Definition keeps_registry {A} (m : M A) : Prop :=
  ∀ w a w', m w = Done a w' → drm_bo_handle_map w' = drm_bo_handle_map w.

Definition is_read_proc_fb (c : call) : bool :=
  match c with read_proc_fb_call => true | _ => false end.

(** ** A concrete platform and concrete worlds *)

(** An Intel machine whose /proc/fb appears only after the first attempt to
    read it; the backend hands out bo addresses from 1000 on and its map
    returns [map_err] and the address 4096. *)
Definition sample_platform (map_err : Z) : platform := {|
  drv_alloc tr handle H :=
    Some (1000 + Z.of_nat (length tr), Bo 0 0 0 0 0 0 0, H);
  drv_map tr bo x y w h write addr := (map_err, 4096);
  gralloc_drm_bo_need_fb tr bo := 0;
  gralloc_drm_bo_add_fb tr bo := 0;
  gralloc_drm_init_kms tr drm := 0;
  gralloc_handle_create tr width height format usage :=
    Some (500 + Z.of_nat (length tr), Handle width height format usage 0 (-1) 0);
  gralloc_drm_get_bpp format := if format =? 1 then 4 else 0;
  proc_fb tr :=
    if existsb is_read_proc_fb tr then Some (0, "inteldrmfb"%string) else None;
  drmOpen tr name := 3;
  drmGetVersion tr fd := Some (Some "i915"%string);
  gralloc_drm_drv_create tr backend fd name := 77;
  ENABLE_FREEDRENO := false;
  ENABLE_INTEL := true;
  ENABLE_RADEON := false;
  ENABLE_NOUVEAU := false;
  ENABLE_PIPE := false;
  new_gralloc_drm tr := (900, 0)
|}.

(** A fresh process. *)
Definition fresh_world : world := World ∅ ∅ ∅ 0 [].

(** A process that received handle 7 (GEM name 5, 64x64) from elsewhere and
    has not registered it; the device is at 900. *)
Definition unseen_world (format usage : Z) : world :=
  World ∅ ∅ {[ 7 := Handle 64 64 format usage 5 (-1) 64 ]} 900 [].

(** A process whose registry knows handle 7 as the bo at 100. *)
Definition known_world (format usage : Z) (B : gralloc_drm_bo_t) : world :=
  World {[ 7 := 100 ]} {[ 100 := B ]}
        {[ 7 := Handle 64 64 format usage 5 (-1) 64 ]} 900 [].

(** ** Further functions of gralloc_drm.cpp *)

Definition with_registry (f : gmap Z Z → gmap Z Z) (w : world) : world :=
  World (f (drm_bo_handle_map w)) (bos w) (handles w) (dmod_drm w) (calls w).

(** [drm_bo_handle_map[_handle]]: the entry, created with a NULL bo when the
    key is absent. *)
Definition registry_index (_handle : Z) : M Z :=
  fun w => match drm_bo_handle_map w !! _handle with
           | Some bo => Done bo w
           | None => Done 0 (with_registry (insert _handle 0) w)
           end.

Definition gralloc_drm_get_gem_handle (_handle : Z) : M Z :=
  let handle := gralloc_handle _handle in
  if handle =? 0 then ret 0
  else H <- load_handle handle ;; ret (h_name H).

Definition gralloc_drm_get_prime_fd (_handle : Z) : M Z :=
  let handle := gralloc_handle _handle in
  if handle =? 0 then ret (-1)
  else H <- load_handle handle ;; ret (h_prime_fd H).

Section ResolveFormat.

(** [drm->drv->resolve_format]: NULL, or what the backend does when called
    with the bo (it fills the caller's pitches, offsets and handles). *)
Variable drv_resolve_format : option (Z → M unit).

Definition gralloc_drm_resolve_format (_handle : Z) : M unit :=
  let handle := gralloc_handle _handle in
  bo <- registry_index _handle ;;
  B <- load_bo bo ;;
  let drm := bo_drm B in
  (* if handle exists and driver implements resolve_format *)
  if negb (handle =? 0) then
    _ <- deref drm ;;
    match drv_resolve_format with
    | Some resolve => resolve bo
    | None => ret tt
    end
  else ret tt.

End ResolveFormat.

(** ** More bookkeeping used in the statements *)

(** The backend named [backend] is compiled in and is the one for the kernel
    driver [name]. *)
Definition backend_enabled (P : platform) (backend name : string) : bool :=
  (String.eqb backend "freedreno" && ENABLE_FREEDRENO P && String.eqb name "msm")
  || (String.eqb backend "intel" && ENABLE_INTEL P && String.eqb name "i915")
  || (String.eqb backend "radeon" && ENABLE_RADEON P && String.eqb name "radeon")
  || (String.eqb backend "nouveau" && ENABLE_NOUVEAU P
      && String.eqb name "nouveau")
  || (String.eqb backend "pipe" && ENABLE_PIPE P).

(** The declared usage has every bit of the flag. *)
Definition declares_flag (declared flag : Z) : Prop :=
  Z.land declared flag = flag.

(** The lock state of a bo is coherent: the count is not negative, and a bo
    that is not locked is locked for nothing. *)
Definition lock_state_ok (B : gralloc_drm_bo_t) : Prop :=
  0 ≤ lock_count B ∧ (lock_count B = 0 → locked_for B = 0).

(** A process that received handle 7 with neither a GEM name nor a prime
    fd. *)
Definition memoryless_world : world :=
  World ∅ ∅ {[ 7 := Handle 64 64 1 0x30 0 (-1) 64 ]} 900 [].

(** A machine like [sample_platform] whose backend is out of memory. *)
Definition exhausted_platform : platform := {|
  drv_alloc tr handle H := None;
  drv_map tr bo x y w h write addr := (0, 4096);
  gralloc_drm_bo_need_fb tr bo := 0;
  gralloc_drm_bo_add_fb tr bo := 0;
  gralloc_drm_init_kms tr drm := 0;
  gralloc_handle_create tr width height format usage :=
    Some (500 + Z.of_nat (length tr), Handle width height format usage 0 (-1) 0);
  gralloc_drm_get_bpp format := if format =? 1 then 4 else 0;
  proc_fb tr := Some (0, "vesafb"%string);
  drmOpen tr name := 3;
  drmGetVersion tr fd := Some (Some "vc4"%string);
  gralloc_drm_drv_create tr backend fd name := 77;
  ENABLE_FREEDRENO := false;
  ENABLE_INTEL := true;
  ENABLE_RADEON := false;
  ENABLE_NOUVEAU := false;
  ENABLE_PIPE := false;
  new_gralloc_drm tr := (900, 0)
|}.

(** A machine whose scanout buffers cannot be attached: every allocation
    wants a framebuffer and adding one fails with -ENOMEM.  The backend sets
    a stride of four bytes per pixel. *)
Definition fb_failing_platform (add_fb_err : Z) : platform := {|
  drv_alloc tr handle H :=
    Some (1000 + Z.of_nat (length tr), Bo 0 0 0 0 0 0 0,
          Handle (h_width H) (h_height H) (h_format H) (h_usage H) 9 (-1)
                 (4 * h_width H));
  drv_map tr bo x y w h write addr := (0, 4096);
  gralloc_drm_bo_need_fb tr bo := 1;
  gralloc_drm_bo_add_fb tr bo := add_fb_err;
  gralloc_drm_init_kms tr drm := 0;
  gralloc_handle_create tr width height format usage :=
    Some (500 + Z.of_nat (length tr), Handle width height format usage 0 (-1) 0);
  gralloc_drm_get_bpp format := if format =? 1 then 4 else 0;
  proc_fb tr := Some (0, "inteldrmfb"%string);
  drmOpen tr name := 3;
  drmGetVersion tr fd := Some (Some "i915"%string);
  gralloc_drm_drv_create tr backend fd name := 77;
  ENABLE_FREEDRENO := false;
  ENABLE_INTEL := true;
  ENABLE_RADEON := false;
  ENABLE_NOUVEAU := false;
  ENABLE_PIPE := false;
  new_gralloc_drm tr := (900, 0)
|}.

(** * Proofs *)

(** ** Integers and masks *)

Lemma wrap_int_small z : - 2 ^ 31 ≤ z ≤ INT_MAX → wrap_int z = z.
Proof.
  unfold wrap_int, INT_MAX. intros Hz.
  rewrite Z.mod_small by lia. lia.
Qed.

Lemma wrap_uint_small z : 0 ≤ z ≤ UINT_MAX → wrap_uint z = z.
Proof.
  unfold wrap_uint, UINT_MAX. intros Hz. apply Z.mod_small. lia.
Qed.


Lemma land_lor_zero d a b :
  Z.land d (Z.lor a b) = 0 ↔ Z.land d a = 0 ∧ Z.land d b = 0.
Proof. rewrite Z.land_lor_distr_r. apply Z.lor_eq_0_iff. Qed.

Lemma fb_special_mask_zero d :
  Z.land d fb_special_mask = 0 ↔ ¬ declared_special d.
Proof.
  unfold fb_special_mask, declared_special.
  rewrite !land_lor_zero. lia.
Qed.

(** A usage inside the mask adds nothing to it. *)
Lemma lor_absorb lf u : Z.land lf u = u → Z.lor lf u = lf.
Proof.
  intros Hsub. apply Z.bits_inj'. intros n Hn.
  rewrite Z.lor_spec, <- Hsub, Z.land_spec.
  destruct (Z.testbit lf n), (Z.testbit u n); reflexivity.
Qed.

Lemma lor_lor_same lf u : Z.lor lf (Z.lor u lf) = Z.lor lf u.
Proof.
  rewrite (Z.lor_comm u lf), Z.lor_assoc, Z.lor_diag. reflexivity.
Qed.

Lemma land_lor_same_zero lf u m :
  Z.land (Z.lor lf (Z.lor u lf)) m = 0 ↔ Z.land (Z.lor u lf) m = 0.
Proof. rewrite lor_lor_same, (Z.lor_comm lf u). reflexivity. Qed.

Lemma usage_mismatch_true declared usage :
  usage_mismatch declared usage = true ↔
  Z.land declared usage ≠ usage ∧ ¬ declared_special declared.
Proof.
  unfold usage_mismatch.
  rewrite andb_true_iff, negb_true_iff, Z.eqb_neq, Z.eqb_eq.
  rewrite fb_special_mask_zero. reflexivity.
Qed.

Lemma lock_conflict_true B usage :
  lock_conflict B usage = true ↔
  lock_count B ≠ 0 ∧ Z.land (locked_for B) usage ≠ usage.
Proof.
  unfold lock_conflict.
  rewrite andb_true_iff, !negb_true_iff, !Z.eqb_neq. reflexivity.
Qed.

(** ** Unfolding the monad *)

Ltac unfold_monad :=
  unfold deref in *;
  unfold bind, ret, fault, get_calls, get_registry, get_dmod_drm,
    set_dmod_drm, emit, load_bo, store_bo, load_handle, new_bo, free_bo,
    put_handle, drop_handle in *.

Lemma bos_with_call c w : bos (with_call c w) = bos w.
Proof. reflexivity. Qed.

Lemma handles_with_call c w : handles (with_call c w) = handles w.
Proof. reflexivity. Qed.

(** ** The lock engine *)

Section LockEngine.

Variable P : platform.
Variables (w : world) (bo : Z) (B : gralloc_drm_bo_t) (H : gralloc_drm_handle_t).
Hypothesis Hbo : bos w !! bo = Some B.
Hypothesis Hhandle : handles w !! bo_handle B = Some H.

(** A lock refused by one of the two gates changes nothing. *)
Lemma lock_refused usage x y wd h addr :
  usage_mismatch (h_usage H) usage = true ∨ lock_conflict B usage = true →
  gralloc_drm_bo_lock P bo usage x y wd h addr w = Done (- EINVAL, addr) w.
Proof.
  intros Hgate. unfold gralloc_drm_bo_lock. unfold_monad.
  rewrite Hbo, Hhandle.
  destruct (usage_mismatch (h_usage H) usage); [reflexivity|].
  destruct Hgate as [Hgate|Hgate]; [discriminate|].
  rewrite Hgate. reflexivity.
Qed.

(** A lock that passes the gates and needs no mapping. *)
Lemma lock_unmapped usage x y wd h addr :
  usage_mismatch (h_usage H) usage = false →
  lock_conflict B usage = false →
  Z.land (Z.lor usage (locked_for B)) sw_access_mask = 0 →
  gralloc_drm_bo_lock P bo usage x y wd h addr w =
  Done (0, addr)
       (with_bos (insert bo (set_lock_state (wrap_int (lock_count B + 1))
                    (Z.lor (locked_for B) (Z.lor usage (locked_for B))) B)) w).
Proof.
  intros Hm Hc Hsw. unfold gralloc_drm_bo_lock, lock_commit. unfold_monad.
  rewrite Hbo, Hhandle, Hm, Hc.
  apply Z.eqb_eq in Hsw. rewrite Hsw. cbn [negb].
  rewrite Hbo. reflexivity.
Qed.

(** A lock that passes the gates and maps. *)
Lemma lock_mapped usage x y wd h addr :
  usage_mismatch (h_usage H) usage = false →
  lock_conflict B usage = false →
  Z.land (Z.lor usage (locked_for B)) sw_access_mask ≠ 0 →
  bo_drm B ≠ 0 →
  let m := drv_map P (calls w) bo x y wd h
             (write_flag (Z.lor usage (locked_for B))) addr in
  let w1 := with_call (drv_map_call bo x y wd h
                         (write_flag (Z.lor usage (locked_for B)))) w in
  gralloc_drm_bo_lock P bo usage x y wd h addr w =
  if m.1 =? 0 then
    Done (0, m.2)
         (with_bos (insert bo (set_lock_state (wrap_int (lock_count B + 1))
                      (Z.lor (locked_for B) (Z.lor usage (locked_for B))) B)) w1)
  else Done m w1.
Proof.
  intros Hm Hc Hsw Hdrm m w1.
  unfold gralloc_drm_bo_lock, lock_commit, call_map. unfold_monad.
  rewrite Hbo, Hhandle, Hm, Hc.
  apply Z.eqb_neq in Hsw. rewrite Hsw. cbn [negb].
  apply Z.eqb_neq in Hdrm. rewrite Hdrm. fold m.
  destruct (m.1 =? 0); cbn [negb]; [|reflexivity].
  cbn [bos with_call]. rewrite Hbo. reflexivity.
Qed.

(** A lock through a NULL [bo->drm] that needs the map is undefined. *)
Lemma lock_mapped_null usage x y wd h addr :
  usage_mismatch (h_usage H) usage = false →
  lock_conflict B usage = false →
  Z.land (Z.lor usage (locked_for B)) sw_access_mask ≠ 0 →
  bo_drm B = 0 →
  gralloc_drm_bo_lock P bo usage x y wd h addr w = Fault.
Proof.
  intros Hm Hc Hsw Hdrm.
  unfold gralloc_drm_bo_lock, lock_commit, call_map. unfold_monad.
  rewrite Hbo, Hhandle, Hm, Hc.
  apply Z.eqb_neq in Hsw. rewrite Hsw. cbn [negb].
  rewrite Hdrm. reflexivity.
Qed.

End LockEngine.

(** What a successful lock has done. *)
Lemma lock_success_inv P w bo B H usage x y wd h addr a w' :
  bos w !! bo = Some B → handles w !! bo_handle B = Some H →
  gralloc_drm_bo_lock P bo usage x y wd h addr w = Done (0, a) w' →
  let u := Z.lor usage (locked_for B) in
  let B' := set_lock_state (wrap_int (lock_count B + 1))
                           (Z.lor (locked_for B) u) B in
  usage_mismatch (h_usage H) usage = false ∧
  lock_conflict B usage = false ∧
  ((Z.land u sw_access_mask = 0 ∧ a = addr ∧
    w' = with_bos (insert bo B') w) ∨
   (Z.land u sw_access_mask ≠ 0 ∧ bo_drm B ≠ 0 ∧
    drv_map P (calls w) bo x y wd h (write_flag u) addr = (0, a) ∧
    w' = with_bos (insert bo B')
           (with_call (drv_map_call bo x y wd h (write_flag u)) w))).
Proof.
  intros Hbo Hhandle Hlock u B'.
  destruct (usage_mismatch (h_usage H) usage) eqn:Hm.
  { rewrite (lock_refused P w bo B H Hbo Hhandle) in Hlock by auto.
    discriminate. }
  destruct (lock_conflict B usage) eqn:Hc.
  { rewrite (lock_refused P w bo B H Hbo Hhandle) in Hlock by auto.
    discriminate. }
  split; [reflexivity|]. split; [reflexivity|].
  destruct (Z.eq_dec (Z.land u sw_access_mask) 0) as [Hsw|Hsw].
  - left.
    rewrite (lock_unmapped P w bo B H Hbo Hhandle) in Hlock by assumption.
    inversion Hlock. auto.
  - right.
    destruct (Z.eq_dec (bo_drm B) 0) as [Hdrm|Hdrm].
    { rewrite (lock_mapped_null P w bo B H Hbo Hhandle) in Hlock by assumption.
      discriminate. }
    rewrite (lock_mapped P w bo B H Hbo Hhandle) in Hlock by assumption.
    fold u in Hlock.
    destruct (drv_map P (calls w) bo x y wd h (write_flag u) addr)
      as [err a0] eqn:Hmap.
    cbn [fst snd] in Hlock.
    destruct (err =? 0) eqn:Herr.
    + apply Z.eqb_eq in Herr. subst err.
      inversion Hlock. subst. auto.
    + inversion Hlock. subst. discriminate.
Qed.

(** C3, as amended. A lock whose requested usage is not a subset of the
    usage the bo was declared with fails with -EINVAL and changes nothing,
    unless the declared usage shares a bit with one of the SW_READ_OFTEN,
    HW_FB, HW_TEXTURE or HW_VIDEO_ENCODER flags (the test is
    [declared & flags], so the two-bit SW_READ_OFTEN is met by a buffer
    declared SW_READ_RARELY as well); when it shares such a bit every
    requested usage passes the usage gate, and the lock succeeds whenever no
    earlier lock conflicts and the map, if one is needed, succeeds. *)
Theorem lock_usage_gate (P : platform) (w : world) (bo : Z)
    (B : gralloc_drm_bo_t) (H : gralloc_drm_handle_t)
    (usage x y wd h addr : Z) :
  bos w !! bo = Some B →
  handles w !! bo_handle B = Some H →
  (Z.land (h_usage H) usage ≠ usage → ¬ declared_special (h_usage H) →
   gralloc_drm_bo_lock P bo usage x y wd h addr w = Done (- EINVAL, addr) w)
  ∧
  (declared_special (h_usage H) →
   usage_mismatch (h_usage H) usage = false ∧
   (lock_conflict B usage = false → bo_drm B ≠ 0 →
    (drv_map P (calls w) bo x y wd h
       (write_flag (Z.lor usage (locked_for B))) addr).1 = 0 →
    ∃ a w', gralloc_drm_bo_lock P bo usage x y wd h addr w = Done (0, a) w')).
Proof.
  intros Hbo Hhandle. split.
  - intros Hsub Hspecial.
    apply (lock_refused P w bo B H Hbo Hhandle). left.
    apply usage_mismatch_true. auto.
  - intros Hspecial.
    assert (Hm : usage_mismatch (h_usage H) usage = false).
    { destruct (usage_mismatch (h_usage H) usage) eqn:Hm; [|reflexivity].
      apply usage_mismatch_true in Hm. tauto. }
    split; [exact Hm|].
    intros Hc Hdrm Hmap.
    destruct (Z.eq_dec (Z.land (Z.lor usage (locked_for B)) sw_access_mask) 0)
      as [Hsw|Hsw].
    + rewrite (lock_unmapped P w bo B H Hbo Hhandle) by assumption. eauto.
    + rewrite (lock_mapped P w bo B H Hbo Hhandle) by assumption.
      rewrite Hmap. cbn. eauto.
Qed.

Lemma lock_usage_gate_witness :
  gralloc_drm_bo_lock (sample_platform 0) 100 0x100 0 0 64 64 0
      (known_world 1 0x30 (Bo 900 7 0 0 0 0 1))
    = Done (- EINVAL, 0) (known_world 1 0x30 (Bo 900 7 0 0 0 0 1))
  ∧ (usage_mismatch 0x100 0x30 = false
     ∧ ∃ a w', gralloc_drm_bo_lock (sample_platform 0) 100 0x30 0 0 64 64 0
                 (known_world 1 0x100 (Bo 900 7 0 0 0 0 1)) = Done (0, a) w').
Proof.
  split.
  - apply (lock_usage_gate (sample_platform 0)
             (known_world 1 0x30 (Bo 900 7 0 0 0 0 1)) 100
             (Bo 900 7 0 0 0 0 1) (Handle 64 64 1 0x30 5 (-1) 64)
             0x100 0 0 64 64 0 eq_refl eq_refl).
    + vm_compute. discriminate.
    + unfold declared_special. vm_compute. intuition discriminate.
  - destruct (lock_usage_gate (sample_platform 0)
             (known_world 1 0x100 (Bo 900 7 0 0 0 0 1)) 100
             (Bo 900 7 0 0 0 0 1) (Handle 64 64 1 0x100 5 (-1) 64)
             0x30 0 0 64 64 0 eq_refl eq_refl) as [_ Hpass].
    destruct Hpass as [Hgate Hlock].
    + unfold declared_special. vm_compute. intuition discriminate.
    + split; [exact Hgate|].
      apply Hlock; [reflexivity | discriminate | reflexivity].
Defined.

(** C3 as stated fails: a bo declared SW_READ_RARELY (0x2) has none of the
    four flags, the requested HW_TEXTURE (0x100) is not a subset of its
    declared usage, and yet the lock is granted. *)
Lemma lock_read_rarely_is_exempt :
  Z.land 0x2 0x100 ≠ 0x100
  ∧ ¬ declares_flag 0x2 GRALLOC_USAGE_SW_READ_OFTEN
  ∧ ¬ declares_flag 0x2 GRALLOC_USAGE_HW_FB
  ∧ ¬ declares_flag 0x2 GRALLOC_USAGE_HW_TEXTURE
  ∧ ¬ declares_flag 0x2 GRALLOC_USAGE_HW_VIDEO_ENCODER
  ∧ gralloc_drm_bo_lock (sample_platform 0) 100 0x100 0 0 64 64 0
      (known_world 1 0x2 (Bo 900 7 0 0 0 0 1))
    = Done (0, 0)
        (with_bos (insert 100 (Bo 900 7 0 0 1 0x100 1))
           (known_world 1 0x2 (Bo 900 7 0 0 0 0 1))).
Proof.
  unfold declares_flag.
  split; [discriminate|]. split; [discriminate|]. split; [discriminate|].
  split; [discriminate|]. split; [discriminate|]. reflexivity.
Qed.

(** C4. On a bo that is already locked, a lock whose usage is not a subset of
    the accumulated [locked_for] fails with -EINVAL and changes nothing; and
    every lock that succeeds adds one to [lock_count] and ORs the requested
    usage into [locked_for], leaving the other fields as they were. *)
Theorem lock_reentrant (P : platform) (w : world) (bo : Z)
    (B : gralloc_drm_bo_t) (H : gralloc_drm_handle_t)
    (usage x y wd h addr : Z) :
  bos w !! bo = Some B →
  handles w !! bo_handle B = Some H →
  (0 < lock_count B → Z.land (locked_for B) usage ≠ usage →
   gralloc_drm_bo_lock P bo usage x y wd h addr w = Done (- EINVAL, addr) w)
  ∧
  (∀ a w', 0 ≤ lock_count B < INT_MAX →
   gralloc_drm_bo_lock P bo usage x y wd h addr w = Done (0, a) w' →
   bos w' !! bo =
     Some (set_lock_state (lock_count B + 1) (Z.lor (locked_for B) usage) B)).
Proof.
  intros Hbo Hhandle. split.
  - intros Hlocked Hsub.
    apply (lock_refused P w bo B H Hbo Hhandle). right.
    apply lock_conflict_true. split; [lia | exact Hsub].
  - intros a w' Hrange Hlock.
    destruct (lock_success_inv P w bo B H usage x y wd h addr a w'
                Hbo Hhandle Hlock) as (_ & _ & Hcases).
    rewrite lor_lor_same in Hcases.
    rewrite wrap_int_small in Hcases by (unfold INT_MAX in *; lia).
    destruct Hcases as [(_ & _ & ->) | (_ & _ & _ & ->)];
      cbn [bos with_bos with_call]; apply lookup_insert_eq.
Qed.

Lemma lock_reentrant_witness :
  gralloc_drm_bo_lock (sample_platform 0) 100 0x30 0 0 64 64 0
      (known_world 1 0x130 (Bo 900 7 0 0 1 0x100 1))
    = Done (- EINVAL, 0) (known_world 1 0x130 (Bo 900 7 0 0 1 0x100 1))
  ∧ bos (with_bos (insert 100 (Bo 900 7 0 0 2 0x100 1))
           (known_world 1 0x130 (Bo 900 7 0 0 1 0x100 1))) !! 100
    = Some (set_lock_state (1 + 1) (Z.lor 0x100 0x100)
              (Bo 900 7 0 0 1 0x100 1)).
Proof.
  split.
  - apply (lock_reentrant (sample_platform 0)
             (known_world 1 0x130 (Bo 900 7 0 0 1 0x100 1)) 100
             (Bo 900 7 0 0 1 0x100 1) (Handle 64 64 1 0x130 5 (-1) 64)
             0x30 0 0 64 64 0 eq_refl eq_refl).
    + reflexivity.
    + vm_compute. discriminate.
  - apply (proj2 (lock_reentrant (sample_platform 0)
             (known_world 1 0x130 (Bo 900 7 0 0 1 0x100 1)) 100
             (Bo 900 7 0 0 1 0x100 1) (Handle 64 64 1 0x130 5 (-1) 64)
             0x100 0 0 64 64 0 eq_refl eq_refl) 0).
    + unfold INT_MAX. cbn. lia.
    + reflexivity.
Defined.

(** C10. When the map that a lock needs returns an error, the lock returns
    that error and the bo keeps its lock state: the only change to the world
    is the recorded map call. *)
Theorem lock_map_failure (P : platform) (w : world) (bo : Z)
    (B : gralloc_drm_bo_t) (H : gralloc_drm_handle_t)
    (usage x y wd h addr err a : Z) :
  bos w !! bo = Some B →
  handles w !! bo_handle B = Some H →
  bo_drm B ≠ 0 →
  usage_mismatch (h_usage H) usage = false →
  lock_conflict B usage = false →
  Z.land (Z.lor usage (locked_for B)) sw_access_mask ≠ 0 →
  drv_map P (calls w) bo x y wd h
    (write_flag (Z.lor usage (locked_for B))) addr = (err, a) →
  err ≠ 0 →
  ∃ w', gralloc_drm_bo_lock P bo usage x y wd h addr w = Done (err, a) w'
        ∧ bos w' = bos w
        ∧ bos w' !! bo = Some B
        ∧ w' = with_call (drv_map_call bo x y wd h
                            (write_flag (Z.lor usage (locked_for B)))) w.
Proof.
  intros Hbo Hhandle Hdrm Hm Hc Hsw Hmap Herr.
  eexists. split.
  - rewrite (lock_mapped P w bo B H Hbo Hhandle) by assumption.
    rewrite Hmap. cbn [fst].
    apply Z.eqb_neq in Herr. rewrite Herr. reflexivity.
  - cbn [bos with_call]. auto.
Qed.

Lemma lock_map_failure_witness :
  ∃ w', gralloc_drm_bo_lock (sample_platform (-12)) 100 0x30 0 0 64 64 0
          (known_world 1 0x30 (Bo 900 7 0 0 0 0 1)) = Done (-12, 4096) w'
        ∧ bos w' = bos (known_world 1 0x30 (Bo 900 7 0 0 0 0 1))
        ∧ bos w' !! 100 = Some (Bo 900 7 0 0 0 0 1)
        ∧ w' = with_call (drv_map_call 100 0 0 64 64 1)
                 (known_world 1 0x30 (Bo 900 7 0 0 0 0 1)).
Proof.
  apply (lock_map_failure (sample_platform (-12))
           (known_world 1 0x30 (Bo 900 7 0 0 0 0 1)) 100
           (Bo 900 7 0 0 0 0 1) (Handle 64 64 1 0x30 5 (-1) 64)
           0x30 0 0 64 64 0 (-12) 4096 eq_refl eq_refl).
  - discriminate.
  - reflexivity.
  - reflexivity.
  - vm_compute. discriminate.
  - reflexivity.
  - discriminate.
Defined.

(** The unlock of a locked bo. *)
Lemma unlock_locked w bo B :
  bos w !! bo = Some B →
  lock_count B ≠ 0 →
  (Z.land (locked_for B) sw_access_mask ≠ 0 → bo_drm B ≠ 0) →
  let lc := wrap_int (lock_count B - 1) in
  gralloc_drm_bo_unlock bo w =
  Done tt (with_bos
             (insert bo (set_lock_state lc
                           (if lc =? 0 then 0 else locked_for B) B))
             (if Z.land (locked_for B) sw_access_mask =? 0 then w
              else with_call (drv_unmap_call bo) w)).
Proof.
  intros Hbo Hlc Hdrm lc. unfold gralloc_drm_bo_unlock. unfold_monad.
  rewrite Hbo. apply Z.eqb_neq in Hlc. rewrite Hlc.
  destruct (Z.land (locked_for B) sw_access_mask =? 0) eqn:Hsw; cbn [negb].
  - rewrite Hbo. reflexivity.
  - apply Z.eqb_neq in Hsw. specialize (Hdrm Hsw).
    apply Z.eqb_neq in Hdrm. rewrite Hdrm.
    cbn [bos with_call]. rewrite Hbo. reflexivity.
Qed.

(** C8, as amended. A successful lock followed at once by an unlock puts
    [lock_count] back to its value before the lock, clears [locked_for] when
    that value is 0 and otherwise leaves it as it was.  When the requested
    usage together with the usage already accumulated in [locked_for] has a
    software read or write flag, the pair makes exactly one map call and one
    unmap call; when that combined usage has none, it makes no backend call. *)
Theorem lock_unlock_pair (P : platform) (w : world) (bo : Z)
    (B : gralloc_drm_bo_t) (H : gralloc_drm_handle_t)
    (usage x y wd h addr a : Z) (w1 : world) :
  bos w !! bo = Some B →
  handles w !! bo_handle B = Some H →
  0 ≤ lock_count B < INT_MAX →
  gralloc_drm_bo_lock P bo usage x y wd h addr w = Done (0, a) w1 →
  ∃ w2,
    gralloc_drm_bo_unlock bo w1 = Done tt w2
    ∧ lock_then_unlock P bo usage x y wd h addr w = Done (0, a) w2
    ∧ bos w2 =
        <[bo := set_lock_state (lock_count B)
                  (if lock_count B =? 0 then 0 else locked_for B) B]> (bos w)
    ∧ calls w2 =
        (if Z.land (Z.lor usage (locked_for B)) sw_access_mask =? 0
         then calls w
         else drv_unmap_call bo
              :: drv_map_call bo x y wd h
                   (write_flag (Z.lor usage (locked_for B)))
              :: calls w).
Proof.
  intros Hbo Hhandle Hrange Hlock.
  destruct (lock_success_inv P w bo B H usage x y wd h addr a w1
              Hbo Hhandle Hlock) as (_ & Hc & Hcases).
  rewrite lor_lor_same in Hcases.
  rewrite wrap_int_small in Hcases by (unfold INT_MAX in *; lia).
  set (u := Z.lor usage (locked_for B)) in *.
  set (B1 := set_lock_state (lock_count B + 1)
               (Z.lor (locked_for B) usage) B) in *.
  assert (Hlf : lock_count B ≠ 0 → Z.lor (locked_for B) usage = locked_for B).
  { intros Hne. apply lor_absorb.
    destruct (Z.eq_dec (Z.land (locked_for B) usage) usage) as [He|He];
      [exact He|].
    assert (lock_conflict B usage = true) by (apply lock_conflict_true; auto).
    congruence. }
  assert (Hmask : Z.land (locked_for B1) sw_access_mask = 0 ↔
                  Z.land u sw_access_mask = 0).
  { subst B1 u. cbn [locked_for set_lock_state].
    rewrite (Z.lor_comm (locked_for B) usage). reflexivity. }
  assert (Hb1 : bos w1 !! bo = Some B1).
  { destruct Hcases as [(_ & _ & ->) | (_ & _ & _ & ->)];
      cbn [bos with_bos with_call]; apply lookup_insert_eq. }
  assert (Hdrm : Z.land (locked_for B1) sw_access_mask ≠ 0 → bo_drm B1 ≠ 0).
  { intros Hsw. destruct Hcases as [(Hz & _) | (_ & Hd & _)]; [|exact Hd].
    apply Hmask in Hz. contradiction. }
  assert (Hlc1 : lock_count B1 ≠ 0) by (subst B1; cbn; lia).
  pose proof (unlock_locked w1 bo B1 Hb1 Hlc1 Hdrm) as Hunlock.
  cbv zeta in Hunlock.
  assert (Hback : wrap_int (lock_count B1 - 1) = lock_count B).
  { subst B1. cbn [lock_count set_lock_state].
    rewrite wrap_int_small; unfold INT_MAX in *; lia. }
  rewrite Hback in Hunlock.
  eexists. split; [exact Hunlock|].
  split.
  { unfold lock_then_unlock, bind. rewrite Hlock, Hunlock. reflexivity. }
  assert (Hfinal : set_lock_state (lock_count B)
                     (if lock_count B =? 0 then 0 else locked_for B1) B1 =
                   set_lock_state (lock_count B)
                     (if lock_count B =? 0 then 0 else locked_for B) B).
  { subst B1. unfold set_lock_state. cbn.
    destruct (lock_count B =? 0) eqn:Hz; [reflexivity|].
    apply Z.eqb_neq in Hz. rewrite (Hlf Hz). reflexivity. }
  rewrite Hfinal.
  destruct Hcases as [(Hz & _ & ->) | (Hnz & _ & _ & ->)].
  - pose proof (proj2 Hmask Hz) as Hz1.
    apply Z.eqb_eq in Hz, Hz1. rewrite Hz, Hz1.
    cbn [bos calls with_bos with_call].
    split; [apply insert_insert_eq | reflexivity].
  - assert (Hnz1 : Z.land (locked_for B1) sw_access_mask ≠ 0) by tauto.
    apply Z.eqb_neq in Hnz, Hnz1. rewrite Hnz, Hnz1.
    cbn [bos calls with_bos with_call].
    split; [apply insert_insert_eq | reflexivity].
Qed.

Lemma lock_unlock_pair_witness :
  ∃ w2,
    gralloc_drm_bo_unlock 100
      (with_bos (insert 100 (Bo 900 7 0 0 1 0x30 1))
         (with_call (drv_map_call 100 0 0 64 64 1)
            (known_world 1 0x30 (Bo 900 7 0 0 0 0 1)))) = Done tt w2
    ∧ lock_then_unlock (sample_platform 0) 100 0x30 0 0 64 64 0
        (known_world 1 0x30 (Bo 900 7 0 0 0 0 1)) = Done (0, 4096) w2
    ∧ bos w2 = <[100 := Bo 900 7 0 0 0 0 1]> {[ 100 := Bo 900 7 0 0 0 0 1 ]}
    ∧ calls w2 = [drv_unmap_call 100; drv_map_call 100 0 0 64 64 1].
Proof.
  apply (lock_unlock_pair (sample_platform 0)
           (known_world 1 0x30 (Bo 900 7 0 0 0 0 1)) 100
           (Bo 900 7 0 0 0 0 1) (Handle 64 64 1 0x30 5 (-1) 64)
           0x30 0 0 64 64 0 4096
           (with_bos (insert 100 (Bo 900 7 0 0 1 0x30 1))
              (with_call (drv_map_call 100 0 0 64 64 1)
                 (known_world 1 0x30 (Bo 900 7 0 0 0 0 1))))
           eq_refl eq_refl).
  - unfold INT_MAX. cbn. lia.
  - reflexivity.
Defined.

(** C8 as stated fails: on a bo already locked for software writes, a lock
    with the purely hardware usage HW_TEXTURE passes both gates, and the lock
    and unlock pair makes one map call and one unmap call. *)
Lemma lock_unlock_hardware_usage_maps :
  Z.land 0x100 sw_access_mask = 0
  ∧ usage_mismatch 0x130 0x100 = false
  ∧ lock_conflict (Bo 900 7 0 0 1 0x130 1) 0x100 = false
  ∧ ∃ w2,
      lock_then_unlock (sample_platform 0) 100 0x100 0 0 64 64 0
        (known_world 1 0x130 (Bo 900 7 0 0 1 0x130 1)) = Done (0, 4096) w2
      ∧ calls (known_world 1 0x130 (Bo 900 7 0 0 1 0x130 1)) = []
      ∧ calls w2 = [drv_unmap_call 100; drv_map_call 100 0 0 64 64 1]
      ∧ bos w2 !! 100 = Some (Bo 900 7 0 0 1 0x130 1).
Proof.
  split; [reflexivity|]. split; [reflexivity|]. split; [reflexivity|].
  eexists. split; [reflexivity|]. split; [reflexivity|].
  split; reflexivity.
Qed.

(** ** Looking a handle up *)

Lemma validate_handle_known P w handle drm bo :
  drm_bo_handle_map w !! handle = Some bo →
  validate_handle P handle drm w = Done bo w.
Proof.
  intros Hreg. unfold validate_handle. unfold_monad. rewrite Hreg. reflexivity.
Qed.

Lemma validate_handle_check_only P w handle :
  drm_bo_handle_map w !! handle = None →
  validate_handle P handle 0 w = Done 0 w.
Proof.
  intros Hreg. unfold validate_handle. unfold_monad. rewrite Hreg. reflexivity.
Qed.

(** ** Unlock *)

Lemma unlock_unlocked w bo B :
  bos w !! bo = Some B → lock_count B = 0 →
  gralloc_drm_bo_unlock bo w = Done tt w.
Proof.
  intros Hbo Hlc. unfold gralloc_drm_bo_unlock. unfold_monad.
  rewrite Hbo, Hlc. reflexivity.
Qed.

(** C5, as amended. Unlocking a bo that is not locked ([lock_count] 0) is a
    no-op: [gralloc_drm_bo_unlock] changes nothing and [drm_mod_unlock]
    returns 0.  Unlocking a handle that is not in the registry also changes
    nothing, but [drm_mod_unlock] returns -EINVAL. *)
Theorem unlock_noop (P : platform) (w : world) (handle : Z) :
  (∀ bo B, bos w !! bo = Some B → lock_count B = 0 →
           gralloc_drm_bo_unlock bo w = Done tt w)
  ∧ (∀ bo B, drm_bo_handle_map w !! handle = Some bo → bo ≠ 0 →
             bos w !! bo = Some B → lock_count B = 0 →
             drm_mod_unlock P handle w = Done 0 w)
  ∧ (drm_bo_handle_map w !! handle = None →
     drm_mod_unlock P handle w = Done (- EINVAL) w).
Proof.
  split; [|split].
  - intros bo B. apply unlock_unlocked.
  - intros bo B Hreg Hnz Hbo Hlc.
    unfold drm_mod_unlock, gralloc_drm_bo_from_handle, bind.
    rewrite (validate_handle_known P w handle 0 bo Hreg).
    apply Z.eqb_neq in Hnz. rewrite Hnz.
    rewrite (unlock_unlocked w bo B Hbo Hlc). reflexivity.
  - intros Hreg.
    unfold drm_mod_unlock, gralloc_drm_bo_from_handle, bind.
    rewrite (validate_handle_check_only P w handle Hreg). reflexivity.
Qed.

Lemma unlock_noop_witness :
  gralloc_drm_bo_unlock 100 (known_world 1 0x30 (Bo 900 7 0 0 0 0 1))
    = Done tt (known_world 1 0x30 (Bo 900 7 0 0 0 0 1))
  ∧ drm_mod_unlock (sample_platform 0) 7
      (known_world 1 0x30 (Bo 900 7 0 0 0 0 1))
    = Done 0 (known_world 1 0x30 (Bo 900 7 0 0 0 0 1))
  ∧ drm_mod_unlock (sample_platform 0) 7 fresh_world
    = Done (- EINVAL) fresh_world.
Proof.
  split; [|split].
  - apply (proj1 (unlock_noop (sample_platform 0)
                    (known_world 1 0x30 (Bo 900 7 0 0 0 0 1)) 7)
             100 (Bo 900 7 0 0 0 0 1)); reflexivity.
  - apply (proj1 (proj2 (unlock_noop (sample_platform 0)
                           (known_world 1 0x30 (Bo 900 7 0 0 0 0 1)) 7))
             100 (Bo 900 7 0 0 0 0 1));
      [reflexivity | discriminate | reflexivity | reflexivity].
  - apply (proj2 (proj2 (unlock_noop (sample_platform 0) fresh_world 7))).
    reflexivity.
Defined.

(** C5 as stated fails: the unlock of a handle the process does not know
    returns -EINVAL, not success. *)
Lemma unlock_unknown_handle_is_error :
  drm_bo_handle_map fresh_world !! 7 = None
  ∧ drm_mod_unlock (sample_platform 0) 7 fresh_world
    = Done (-22) fresh_world
  ∧ -22 ≠ 0.
Proof.
  split; [reflexivity|]. split; [reflexivity|]. discriminate.
Qed.

(** ** Allocation *)

(** C9. An allocation whose pixel format has no bytes-per-pixel fails with
    -EINVAL before anything else happens: the world, and with it the record
    of backend calls, the registry and every bo, is unchanged, and so are the
    caller's [*handle] and [*stride]. *)
Theorem alloc_unknown_format (P : platform) (w : world)
    (width height format usage handle stride : Z) :
  gralloc_drm_get_bpp P format = 0 →
  drm_mod_alloc_gpu0 P width height format usage handle stride w
  = Done (- EINVAL, handle, stride) w.
Proof.
  intros Hbpp. unfold drm_mod_alloc_gpu0. rewrite Hbpp. reflexivity.
Qed.

Lemma alloc_unknown_format_witness :
  drm_mod_alloc_gpu0 (sample_platform 0) 64 64 0x7777 0x30 0 0
    (with_dmod_drm 900 fresh_world)
  = Done (- EINVAL, 0, 0) (with_dmod_drm 900 fresh_world).
Proof.
  apply (alloc_unknown_format (sample_platform 0)
           (with_dmod_drm 900 fresh_world) 64 64 0x7777 0x30 0 0).
  reflexivity.
Defined.

(** ** The planar lock *)

Lemma lock_success_handles P w bo B H usage x y wd h addr a w' :
  bos w !! bo = Some B → handles w !! bo_handle B = Some H →
  gralloc_drm_bo_lock P bo usage x y wd h addr w = Done (0, a) w' →
  handles w' = handles w.
Proof.
  intros Hbo Hhandle Hlock.
  destruct (lock_success_inv P w bo B H usage x y wd h addr a w'
              Hbo Hhandle Hlock) as (_ & _ & Hcases).
  destruct Hcases as [(_ & _ & ->) | (_ & _ & _ & ->)]; reflexivity.
Qed.




(** ** Initialising the device *)

Lemma with_dmod_drm_same w d : dmod_drm w = d → with_dmod_drm d w = w.
Proof. intros <-. destruct w. reflexivity. Qed.

Lemma after_calls_refl w : after_calls w w.
Proof. unfold after_calls. repeat split; reflexivity. Qed.

Lemma after_calls_trans w1 w2 w3 :
  after_calls w1 w2 → after_calls w2 w3 → after_calls w1 w3.
Proof.
  unfold after_calls.
  intros (Hr1 & Hb1 & Hh1 & Hd1 & Hc1) (Hr2 & Hb2 & Hh2 & Hd2 & Hc2).
  repeat split; try congruence. etrans; eassumption.
Qed.

Lemma after_calls_emit c w : after_calls w (with_call c w).
Proof.
  unfold after_calls. cbn. repeat split. apply suffix_cons_r. reflexivity.
Qed.

Ltac solve_after_calls :=
  first [ apply after_calls_refl
        | eapply after_calls_trans;
          [| apply after_calls_emit ]; solve_after_calls ].

Lemma only_calls_ret {A} (a : A) : only_calls (ret a).
Proof. intros w. exists a, w. split; [reflexivity | apply after_calls_refl]. Qed.

Lemma only_calls_get_calls : only_calls get_calls.
Proof.
  intros w. exists (calls w), w. split; [reflexivity | apply after_calls_refl].
Qed.

Lemma only_calls_emit c : only_calls (emit c).
Proof.
  intros w. exists tt, (with_call c w).
  split; [reflexivity | apply after_calls_emit].
Qed.

Lemma only_calls_bind {A B} (m : M A) (k : A → M B) :
  only_calls m → (∀ a, only_calls (k a)) → only_calls (bind m k).
Proof.
  intros Hm Hk w.
  destruct (Hm w) as (a & w1 & Hrun & Hafter).
  destruct (Hk a w1) as (b & w2 & Hrun2 & Hafter2).
  exists b, w2. unfold bind. rewrite Hrun. split; [exact Hrun2|].
  eapply after_calls_trans; eassumption.
Qed.

Ltac solve_only_calls :=
  repeat first
    [ apply only_calls_ret
    | apply only_calls_get_calls
    | apply only_calls_emit
    | apply only_calls_bind; [| intros ? ]
    | match goal with
      | |- only_calls (match ?x with _ => _ end) => destruct x
      | |- only_calls (let _ := _ in _) => cbv zeta
      end ].

Lemma init_drv_from_fd_only_calls P fd : only_calls (init_drv_from_fd P fd).
Proof.
  unfold init_drv_from_fd, call_drv_create. solve_only_calls.
Qed.

(** Creating the device always returns, and always starts by reading
    /proc/fb. *)
Lemma gralloc_drm_create_runs P w :
  ∃ drm w1, gralloc_drm_create P w = Done drm w1
            ∧ after_calls (with_call read_proc_fb_call w) w1.
Proof.
  unfold gralloc_drm_create.
  unfold bind at 1. unfold get_calls at 1.
  unfold bind at 1. unfold emit at 1.
  generalize (with_call read_proc_fb_call w).
  match goal with
  | |- ∀ w0, ∃ a w1, ?m w0 = Done a w1 ∧ _ => change (only_calls m)
  end.
  solve_only_calls; apply init_drv_from_fd_only_calls.
Qed.

(** C6, as amended. While the device context is unready ([dmod->drm] is
    NULL, as it is after a failed creation), every [drm_init] runs
    [gralloc_drm_create] again, reading /proc/fb once more.  If that creation
    fails again, [drm_init] returns -EINVAL and the context stays unready; if
    it now succeeds, the context becomes ready and [drm_init] returns 0 (or,
    with KMS requested, what [gralloc_drm_init_kms] returns). *)
Theorem drm_init_unready_retries (P : platform) (kms : Z) (w : world) :
  dmod_drm w = 0 →
  ∃ drm w1,
    gralloc_drm_create P w = Done drm w1
    ∧ after_calls (with_call read_proc_fb_call w) w1
    ∧ (drm = 0 →
       drm_init P kms w = Done (- EINVAL) w1 ∧ dmod_drm w1 = 0)
    ∧ (drm ≠ 0 → kms = 0 →
       drm_init P kms w = Done 0 (with_dmod_drm drm w1))
    ∧ (drm ≠ 0 → kms ≠ 0 →
       drm_init P kms w =
       Done (gralloc_drm_init_kms P (calls w1) drm)
            (with_call (init_kms_call drm) (with_dmod_drm drm w1))).
Proof.
  intros Hunready.
  destruct (gralloc_drm_create_runs P w) as (drm & w1 & Hcreate & Hafter).
  exists drm, w1. split; [exact Hcreate|]. split; [exact Hafter|].
  assert (Hd1 : dmod_drm w1 = 0).
  { destruct Hafter as (_ & _ & _ & Hd & _). rewrite Hd. exact Hunready. }
  unfold drm_init. unfold_monad. rewrite Hunready, Z.eqb_refl, Hcreate.
  repeat split.
  - subst drm. cbn. rewrite (with_dmod_drm_same w1 0 Hd1). reflexivity.
  - exact Hd1.
  - intros Hdrm Hkms. apply Z.eqb_neq in Hdrm. rewrite Hdrm. subst kms.
    reflexivity.
  - intros Hdrm Hkms. apply Z.eqb_neq in Hdrm, Hkms. rewrite Hdrm, Hkms.
    reflexivity.
Qed.

Lemma drm_init_unready_retries_witness :
  ∃ drm w1,
    gralloc_drm_create (sample_platform 0) fresh_world = Done drm w1
    ∧ after_calls (with_call read_proc_fb_call fresh_world) w1
    ∧ (drm = 0 →
       drm_init (sample_platform 0) 0 fresh_world = Done (- EINVAL) w1
       ∧ dmod_drm w1 = 0)
    ∧ (drm ≠ 0 → 0 = 0 →
       drm_init (sample_platform 0) 0 fresh_world
       = Done 0 (with_dmod_drm drm w1))
    ∧ (drm ≠ 0 → 0 ≠ 0 →
       drm_init (sample_platform 0) 0 fresh_world =
       Done (gralloc_drm_init_kms (sample_platform 0) (calls w1) drm)
            (with_call (init_kms_call drm) (with_dmod_drm drm w1))).
Proof.
  apply (drm_init_unready_retries (sample_platform 0) 0 fresh_world).
  reflexivity.
Defined.

(** C6 as stated fails: on a machine where /proc/fb cannot be read at the
    first attempt and can at the second, the first [drm_init] fails with
    -EINVAL and the second runs the creation again and succeeds. *)
Lemma drm_init_retry_succeeds :
  ∃ w1 w2,
    drm_init (sample_platform 0) 0 fresh_world = Done (-22) w1
    ∧ dmod_drm w1 = 0
    ∧ calls w1 = [read_proc_fb_call]
    ∧ drm_init (sample_platform 0) 0 w1 = Done 0 w2
    ∧ dmod_drm w2 = 900
    ∧ calls w2 = [drv_create_call "intel" 3; drmGetVersion_call 3;
                  drmOpen_call "i915"; new_drm_call; read_proc_fb_call;
                  read_proc_fb_call].
Proof.
  eexists _, _.
  split; [reflexivity|]. split; [reflexivity|]. split; [reflexivity|].
  split; [reflexivity|]. split; reflexivity.
Qed.

(** ** The registry and the reference count *)

Lemma set_refcount_same B : set_refcount (refcount B) B = B.
Proof. destruct B. reflexivity. Qed.

Lemma set_refcount_twice r r' B :
  set_refcount r (set_refcount r' B) = set_refcount r B.
Proof. reflexivity. Qed.

Lemma with_bos_same f w : f (bos w) = bos w → with_bos f w = w.
Proof. unfold with_bos. intros ->. destruct w. reflexivity. Qed.

Lemma with_bos_twice f g w :
  with_bos f (with_bos g w) = with_bos (λ m, f (g m)) w.
Proof. reflexivity. Qed.

Ltac done_inv :=
  let Heq := fresh "Heq" in
  intros Heq; inversion Heq; subst; clear Heq.

(** No path of [validate_handle] writes the registry. *)
Lemma validate_handle_keeps_registry P handle drm w bo w' :
  validate_handle P handle drm w = Done bo w' →
  drm_bo_handle_map w' = drm_bo_handle_map w.
Proof.
  unfold validate_handle. unfold_monad.
  destruct (drm_bo_handle_map w !! handle); [done_inv; reflexivity|].
  destruct (drm =? 0); [done_inv; reflexivity|].
  destruct (gralloc_handle handle =? 0); [done_inv; reflexivity|].
  destruct (handles w !! gralloc_handle handle) as [H|]; [|discriminate].
  destruct (negb (h_name H =? 0) || (0 <=? h_prime_fd H));
    [|done_inv; reflexivity].
  destruct (drv_alloc P (calls w) (gralloc_handle handle) H)
    as [[[bo' B'] H']|]; [|discriminate].
  done_inv. reflexivity.
Qed.

Lemma register_keeps_registry P handle drm w r w' :
  gralloc_drm_handle_register P handle drm w = Done r w' →
  drm_bo_handle_map w' = drm_bo_handle_map w.
Proof.
  unfold gralloc_drm_handle_register, bind.
  destruct (validate_handle P handle drm w) as [bo w1|] eqn:Hv; [|discriminate].
  apply validate_handle_keeps_registry in Hv.
  destruct (bo =? 0); [done_inv; exact Hv|].
  unfold load_bo, store_bo, ret.
  destruct (bos w1 !! bo) eqn:Hbo; [|discriminate].
  rewrite Hbo. done_inv. exact Hv.
Qed.

(** The import of a handle the registry does not have. *)
Lemma validate_handle_import P w handle drm H bo B H' :
  drm_bo_handle_map w !! handle = None →
  drm ≠ 0 → handle ≠ 0 →
  handles w !! handle = Some H →
  h_name H ≠ 0 ∨ 0 ≤ h_prime_fd H →
  drv_alloc P (calls w) handle H = Some (bo, B, H') →
  validate_handle P handle drm w =
  Done bo (with_bos (insert bo (Bo drm handle 1 (fb_id B)
                                    (lock_count B) (locked_for B) 1))
             (with_handles (insert handle H')
                (with_call (drv_alloc_call handle) w))).
Proof.
  intros Hreg Hdrm Hnz Hhandle Hvalid Halloc.
  unfold validate_handle, gralloc_handle. unfold_monad.
  rewrite Hreg.
  apply Z.eqb_neq in Hdrm, Hnz. rewrite Hdrm, Hnz, Hhandle.
  assert (Hv : negb (h_name H =? 0) || (0 <=? h_prime_fd H) = true).
  { apply orb_true_iff. destruct Hvalid as [Hn|Hp].
    - left. apply negb_true_iff, Z.eqb_neq. exact Hn.
    - right. apply Z.leb_le. exact Hp. }
  rewrite Hv, Halloc. reflexivity.
Qed.

Lemma register_known P w handle drm bo B :
  drm_bo_handle_map w !! handle = Some bo → bo ≠ 0 →
  bos w !! bo = Some B →
  gralloc_drm_handle_register P handle drm w =
  Done 0 (with_bos (insert bo (set_refcount (wrap_uint (refcount B + 1)) B)) w).
Proof.
  intros Hreg Hnz Hbo. unfold gralloc_drm_handle_register, bind.
  rewrite (validate_handle_known P w handle drm bo Hreg).
  apply Z.eqb_neq in Hnz. rewrite Hnz.
  unfold load_bo, store_bo, ret. rewrite !Hbo. reflexivity.
Qed.

(** A decrement that leaves references. *)
Lemma decref_keeps w bo B :
  bos w !! bo = Some B →
  wrap_uint (refcount B - 1) ≠ 0 →
  gralloc_drm_bo_decref bo w =
  Done tt (with_bos (insert bo (set_refcount (wrap_uint (refcount B - 1)) B)) w).
Proof.
  intros Hbo Hr. unfold gralloc_drm_bo_decref. unfold_monad.
  rewrite !Hbo. apply Z.eqb_neq in Hr. rewrite Hr. reflexivity.
Qed.

(** The decrement that takes the last reference destroys the bo. *)
Lemma decref_last w bo B :
  bos w !! bo = Some B →
  refcount B = 1 →
  bo_drm B ≠ 0 →
  gralloc_drm_bo_decref bo w =
  Done tt
    (let w1 := World (drm_bo_handle_map w) (delete bo (bos w)) (handles w)
                     (dmod_drm w)
                     (drv_free_call bo :: rm_fb_call bo :: calls w) in
     if imported B =? 0
     then with_handles (delete (bo_handle B))
            (with_call (delete_handle_call (bo_handle B)) w1)
     else w1).
Proof.
  intros Hbo Hr Hdrm.
  unfold gralloc_drm_bo_decref, gralloc_drm_bo_destroy. unfold_monad.
  rewrite !Hbo, Hr.
  change (wrap_uint (1 - 1)) with 0. cbn [Z.eqb].
  cbn [bos with_bos]. rewrite lookup_insert_eq.
  cbn [refcount set_refcount bo_drm imported bo_handle Z.eqb negb].
  apply Z.eqb_neq in Hdrm. rewrite Hdrm.
  unfold with_bos, with_call, with_handles. cbn.
  rewrite delete_insert_eq.
  destruct (imported B =? 0); reflexivity.
Qed.

Lemma with_bos_insert_twice bo B1 B2 w :
  with_bos (insert bo B2) (with_bos (insert bo B1) w) = with_bos (insert bo B2) w.
Proof. unfold with_bos. cbn. rewrite insert_insert_eq. reflexivity. Qed.

Lemma unregister_step_set_refcount r B :
  unregister_step (set_refcount r B) = unregister_step B.
Proof. reflexivity. Qed.

(** An unregister that leaves references. *)
Lemma unregister_keeps P w handle bo B :
  drm_bo_handle_map w !! handle = Some bo → bo ≠ 0 →
  bos w !! bo = Some B →
  unregister_step B < refcount B ≤ UINT_MAX →
  gralloc_drm_handle_unregister P handle w =
  Done 0 (with_bos (insert bo (set_refcount (refcount B - unregister_step B) B)) w).
Proof.
  intros Hreg Hnz Hbo Hr.
  unfold gralloc_drm_handle_unregister, bind.
  rewrite (validate_handle_known P w handle 0 bo Hreg).
  apply Z.eqb_neq in Hnz. rewrite Hnz.
  assert (Hstep : 1 ≤ unregister_step B)
    by (unfold unregister_step; destruct (imported B =? 0); lia).
  assert (Hw1 : wrap_uint (refcount B - 1) = refcount B - 1)
    by (apply wrap_uint_small; lia).
  rewrite (decref_keeps w bo B Hbo) by lia.
  rewrite Hw1.
  unfold load_bo at 1. cbn [bos with_bos]. rewrite lookup_insert_eq.
  cbn [imported set_refcount].
  unfold unregister_step in *.
  destruct (imported B =? 0); cbn [negb].
  - reflexivity.
  - set (B1 := set_refcount (refcount B - 1) B).
    assert (Hb1 : bos (with_bos (insert bo B1) w) !! bo = Some B1)
      by (cbn [bos with_bos]; apply lookup_insert_eq).
    assert (Hw2 : wrap_uint (refcount B1 - 1) = refcount B - 2).
    { subst B1. cbn [refcount set_refcount].
      rewrite wrap_uint_small by lia. lia. }
    rewrite (decref_keeps _ bo B1 Hb1) by lia.
    rewrite Hw2, with_bos_insert_twice. reflexivity.
Qed.

(** The unregister that takes an imported bo from two references to none. *)
Lemma unregister_imported_last P w handle bo B :
  drm_bo_handle_map w !! handle = Some bo → bo ≠ 0 →
  bos w !! bo = Some B →
  imported B ≠ 0 → refcount B = 2 → bo_drm B ≠ 0 →
  gralloc_drm_handle_unregister P handle w =
  Done 0 (World (drm_bo_handle_map w) (delete bo (bos w)) (handles w)
                (dmod_drm w) (drv_free_call bo :: rm_fb_call bo :: calls w)).
Proof.
  intros Hreg Hnz Hbo Himp Hr Hdrm.
  unfold gralloc_drm_handle_unregister, bind.
  rewrite (validate_handle_known P w handle 0 bo Hreg).
  apply Z.eqb_neq in Hnz. rewrite Hnz.
  assert (Hw1 : wrap_uint (refcount B - 1) = 1) by (rewrite Hr; reflexivity).
  rewrite (decref_keeps w bo B Hbo) by (rewrite Hw1; discriminate).
  rewrite Hw1.
  unfold load_bo at 1. cbn [bos with_bos]. rewrite lookup_insert_eq.
  cbn [imported set_refcount].
  apply Z.eqb_neq in Himp. rewrite Himp. cbn [negb].
  set (B1 := set_refcount 1 B).
  assert (Hb1 : bos (with_bos (insert bo B1) w) !! bo = Some B1)
    by (cbn [bos with_bos]; apply lookup_insert_eq).
  rewrite (decref_last _ bo B1 Hb1 eq_refl Hdrm).
  cbn [imported B1 set_refcount]. rewrite Himp.
  cbv zeta. cbn [drm_bo_handle_map bos handles dmod_drm calls with_bos].
  rewrite delete_insert_eq. reflexivity.
Qed.

Lemma unregister_unknown P w handle :
  drm_bo_handle_map w !! handle = None →
  gralloc_drm_handle_unregister P handle w = Done (- EINVAL) w.
Proof.
  intros Hreg. unfold gralloc_drm_handle_unregister, bind.
  rewrite (validate_handle_check_only P w handle Hreg). reflexivity.
Qed.

Lemma count_after_closed d ops : ∀ r,
  count_after d r ops = r + registers ops - d * unregisters ops.
Proof.
  induction ops as [|[|] ops IH]; intros r; cbn [count_after registers unregisters].
  - lia.
  - rewrite IH. lia.
  - rewrite IH. lia.
Qed.

(** A sequence of registers and unregisters that never drops the last
    reference. *)
Lemma run_ops_referenced P handle drm bo ops : ∀ w B,
  drm_bo_handle_map w !! handle = Some bo → bo ≠ 0 →
  bos w !! bo = Some B →
  0 < refcount B →
  refcount B + Z.of_nat (length ops) ≤ UINT_MAX →
  stays_referenced (unregister_step B) (refcount B) ops = true →
  run_ops P handle drm ops w =
  Done (map (λ _, 0) ops)
       (with_bos (insert bo (set_refcount
                    (count_after (unregister_step B) (refcount B) ops) B)) w).
Proof.
  induction ops as [|o ops IH]; intros w B Hreg Hnz Hbo Hpos Hmax Hstay.
  - cbn [run_ops count_after map]. unfold ret.
    rewrite set_refcount_same, with_bos_same; [reflexivity|].
    apply insert_id. exact Hbo.
  - cbn [length] in Hmax. rewrite Nat2Z.inj_succ in Hmax.
    destruct o;
      cbn [run_ops run_op count_after stays_referenced map] in *;
      unfold bind at 1.
    + rewrite (register_known P w handle drm bo B Hreg Hnz Hbo).
      rewrite wrap_uint_small by lia.
      set (B1 := set_refcount (refcount B + 1) B).
      set (w1 := with_bos (insert bo B1) w).
      assert (Hb1 : bos w1 !! bo = Some B1)
        by (subst w1; cbn [bos with_bos]; apply lookup_insert_eq).
      unfold bind.
      rewrite (IH w1 B1 Hreg Hnz Hb1);
        try (subst B1; cbn [refcount set_refcount]; first [lia | exact Hstay]).
      subst w1 B1. cbn [refcount set_refcount].
      rewrite unregister_step_set_refcount, set_refcount_twice,
        with_bos_insert_twice.
      reflexivity.
    + apply andb_true_iff in Hstay. destruct Hstay as [Hlt Hstay].
      apply Z.ltb_lt in Hlt.
      assert (Hstep : 1 ≤ unregister_step B)
        by (unfold unregister_step; destruct (imported B =? 0); lia).
      rewrite (unregister_keeps P w handle bo B Hreg Hnz Hbo) by lia.
      set (B1 := set_refcount (refcount B - unregister_step B) B).
      set (w1 := with_bos (insert bo B1) w).
      assert (Hb1 : bos w1 !! bo = Some B1)
        by (subst w1; cbn [bos with_bos]; apply lookup_insert_eq).
      unfold bind.
      rewrite (IH w1 B1 Hreg Hnz Hb1);
        try (subst B1; cbn [refcount set_refcount]; first [lia | exact Hstay]).
      subst w1 B1. cbn [refcount set_refcount].
      rewrite unregister_step_set_refcount, set_refcount_twice,
        with_bos_insert_twice.
      reflexivity.
Qed.

(** C2, as amended. For a handle whose registry entry names a live bo, each
    register adds one to the bo's refcount and each unregister takes off one
    for a locally created bo and two for an imported one: after a sequence in
    which no unregister brings the count to zero every call has returned 0,
    the refcount is its value before the sequence plus the number of
    registers minus (one or two times) the number of unregisters, and no
    backend call was made.  The unregister that takes an imported bo from two
    references to none releases the bo with exactly one backend free.  The
    first register of a handle the registry does not have imports a bo and
    leaves its refcount at 2.  An unregister of a handle with no registry
    entry fails with -EINVAL and changes nothing. *)
Theorem register_unregister_refcount (P : platform) (w : world)
    (handle drm : Z) :
  (∀ bo B ops,
     drm_bo_handle_map w !! handle = Some bo → bo ≠ 0 →
     bos w !! bo = Some B →
     0 < refcount B →
     refcount B + Z.of_nat (length ops) ≤ INT_MAX →
     stays_referenced (unregister_step B) (refcount B) ops = true →
     run_ops P handle drm ops w =
     Done (map (λ _, 0) ops)
          (with_bos (insert bo (set_refcount
                       (refcount B + registers ops
                        - unregister_step B * unregisters ops) B)) w))
  ∧
  (∀ bo B,
     drm_bo_handle_map w !! handle = Some bo → bo ≠ 0 →
     bos w !! bo = Some B →
     imported B ≠ 0 → refcount B = 2 → bo_drm B ≠ 0 →
     gralloc_drm_handle_unregister P handle w =
     Done 0 (World (drm_bo_handle_map w) (delete bo (bos w)) (handles w)
                   (dmod_drm w)
                   (drv_free_call bo :: rm_fb_call bo :: calls w)))
  ∧
  (∀ H bo B H',
     drm_bo_handle_map w !! handle = None →
     drm ≠ 0 → handle ≠ 0 → bo ≠ 0 →
     handles w !! handle = Some H →
     h_name H ≠ 0 ∨ 0 ≤ h_prime_fd H →
     drv_alloc P (calls w) handle H = Some (bo, B, H') →
     ∃ w', gralloc_drm_handle_register P handle drm w = Done 0 w'
           ∧ bos w' !! bo = Some (Bo drm handle 1 (fb_id B) (lock_count B)
                                     (locked_for B) 2)
           ∧ calls w' = drv_alloc_call handle :: calls w)
  ∧
  (drm_bo_handle_map w !! handle = None →
   gralloc_drm_handle_unregister P handle w = Done (- EINVAL) w).
Proof.
  repeat split.
  - intros bo B ops Hreg Hnz Hbo Hpos Hmax Hstay.
    rewrite <- count_after_closed.
    apply run_ops_referenced; try assumption.
    unfold INT_MAX, UINT_MAX in *. lia.
  - intros bo B. apply unregister_imported_last.
  - intros H bo B H' Hreg Hdrm Hnz Hbnz Hhandle Hvalid Halloc.
    unfold gralloc_drm_handle_register, bind.
    rewrite (validate_handle_import P w handle drm H bo B H'
               Hreg Hdrm Hnz Hhandle Hvalid Halloc).
    apply Z.eqb_neq in Hbnz. rewrite Hbnz.
    set (B1 := Bo drm handle 1 (fb_id B) (lock_count B) (locked_for B) 1).
    set (w1 := with_bos (insert bo B1) _).
    assert (Hb1 : bos w1 !! bo = Some B1)
      by (subst w1; cbn [bos with_bos]; apply lookup_insert_eq).
    unfold load_bo, store_bo, ret. rewrite !Hb1.
    eexists. split; [reflexivity|].
    cbn [bos calls with_bos]. rewrite lookup_insert_eq.
    split; reflexivity.
  - apply unregister_unknown.
Qed.

Lemma register_unregister_refcount_witness :
  run_ops (sample_platform 0) 7 900
      [Register; Register; Unregister; Register]
      (known_world 1 0x30 (Bo 900 7 1 0 0 0 2))
    = Done [0; 0; 0; 0]
        (with_bos (insert 100 (set_refcount (2 + 3 - 2 * 1)
                                 (Bo 900 7 1 0 0 0 2)))
           (known_world 1 0x30 (Bo 900 7 1 0 0 0 2)))
  ∧ gralloc_drm_handle_unregister (sample_platform 0) 7
      (known_world 1 0x30 (Bo 900 7 1 0 0 0 2))
    = Done 0 (World {[ 7 := 100 ]} (delete 100 {[ 100 := Bo 900 7 1 0 0 0 2 ]})
                {[ 7 := Handle 64 64 1 0x30 5 (-1) 64 ]} 900
                [drv_free_call 100; rm_fb_call 100])
  ∧ (∃ w', gralloc_drm_handle_register (sample_platform 0) 7 900
             (unseen_world 1 0x30) = Done 0 w'
           ∧ bos w' !! 1000 = Some (Bo 900 7 1 0 0 0 2)
           ∧ calls w' = [drv_alloc_call 7])
  ∧ gralloc_drm_handle_unregister (sample_platform 0) 7 (unseen_world 1 0x30)
    = Done (- EINVAL) (unseen_world 1 0x30).
Proof.
  split; [|split; [|split]].
  - apply (proj1 (register_unregister_refcount (sample_platform 0)
                    (known_world 1 0x30 (Bo 900 7 1 0 0 0 2)) 7 900)
             100 (Bo 900 7 1 0 0 0 2)
             [Register; Register; Unregister; Register]);
      [reflexivity | discriminate | reflexivity | reflexivity
      | unfold INT_MAX; cbn; lia | reflexivity].
  - apply (proj1 (proj2 (register_unregister_refcount (sample_platform 0)
                    (known_world 1 0x30 (Bo 900 7 1 0 0 0 2)) 7 900))
             100 (Bo 900 7 1 0 0 0 2));
      [reflexivity | discriminate | reflexivity | discriminate
      | reflexivity | discriminate].
  - apply (proj1 (proj2 (proj2 (register_unregister_refcount
                    (sample_platform 0) (unseen_world 1 0x30) 7 900)))
             (Handle 64 64 1 0x30 5 (-1) 64) 1000 (Bo 0 0 0 0 0 0 0)
             (Handle 64 64 1 0x30 5 (-1) 64));
      [reflexivity | discriminate | discriminate | discriminate
      | reflexivity | left; discriminate | reflexivity].
  - apply (proj2 (proj2 (proj2 (register_unregister_refcount
                    (sample_platform 0) (unseen_world 1 0x30) 7 900)))).
    reflexivity.
Defined.

(** C2 as stated fails: the first register of a handle the registry does not
    have finds no entry, so the count the claim gives is 1 + 0 - 0 = 1, yet
    the refcount of the bo it imports is 2. *)
Lemma first_register_leaves_two :
  drm_bo_handle_map (unseen_world 1 0x30) !! 7 = None
  ∧ ∃ w', run_ops (sample_platform 0) 7 900 [Register] (unseen_world 1 0x30)
          = Done [0] w'
          ∧ (refcount <$> bos w' !! 1000) = Some 2
          ∧ spec_refcount 0 0 = 1
          ∧ 2 ≠ spec_refcount 0 0.
Proof.
  split; [reflexivity|]. eexists.
  split; [reflexivity|]. split; [reflexivity|]. split; [reflexivity|].
  discriminate.
Qed.

(** ** Nothing writes the registry *)

Lemma keeps_registry_ret {A} (a : A) : keeps_registry (ret a).
Proof. intros w a' w'. unfold ret. done_inv. reflexivity. Qed.

Lemma keeps_registry_fault {A} : keeps_registry (@fault A).
Proof. intros w a w'. unfold fault. discriminate. Qed.

Lemma keeps_registry_bind {A B} (m : M A) (k : A → M B) :
  keeps_registry m → (∀ a, keeps_registry (k a)) → keeps_registry (bind m k).
Proof.
  intros Hm Hk w b w'. unfold bind.
  destruct (m w) as [a w1|] eqn:Hrun; [|discriminate].
  intros Hrun2. rewrite (Hk a w1 b w' Hrun2). eapply Hm. exact Hrun.
Qed.

Lemma keeps_registry_prim :
  keeps_registry get_calls ∧ keeps_registry get_registry ∧
  keeps_registry get_dmod_drm ∧
  (∀ d, keeps_registry (set_dmod_drm d)) ∧
  (∀ c, keeps_registry (emit c)) ∧
  (∀ bo, keeps_registry (load_bo bo)) ∧
  (∀ bo B, keeps_registry (store_bo bo B)) ∧
  (∀ h, keeps_registry (load_handle h)) ∧
  (∀ bo B, keeps_registry (new_bo bo B)) ∧
  (∀ bo, keeps_registry (free_bo bo)) ∧
  (∀ h H, keeps_registry (put_handle h H)) ∧
  (∀ h, keeps_registry (drop_handle h)) ∧
  (∀ p, keeps_registry (deref p)).
Proof.
  unfold keeps_registry. unfold_monad.
  repeat split; intros;
    repeat match goal with
           | Hrun : context [match ?x with _ => _ end] |- _ =>
               destruct x; try discriminate
           end;
    match goal with
    | Hrun : Done _ _ = Done _ _ |- _ => inversion Hrun; subst; reflexivity
    end.
Qed.

Ltac solve_keeps_registry :=
  repeat first
    [ apply keeps_registry_ret
    | apply keeps_registry_fault
    | apply keeps_registry_bind; [| intros ? ]
    | apply keeps_registry_prim
    | assumption
    | match goal with
      | |- keeps_registry (match ?x with _ => _ end) => destruct x
      | |- keeps_registry (let _ := _ in _) => cbv zeta
      end ].

Lemma validate_handle_keeps P handle drm :
  keeps_registry (validate_handle P handle drm).
Proof. intros w bo w'. apply validate_handle_keeps_registry. Qed.

Lemma decref_keeps_registry bo : keeps_registry (gralloc_drm_bo_decref bo).
Proof.
  unfold gralloc_drm_bo_decref, gralloc_drm_bo_destroy. solve_keeps_registry.
Qed.

Lemma lock_keeps_registry P bo usage x y wd h addr :
  keeps_registry (gralloc_drm_bo_lock P bo usage x y wd h addr).
Proof.
  unfold gralloc_drm_bo_lock, call_map, lock_commit. solve_keeps_registry.
Qed.

Lemma drm_init_keeps_registry P kms : keeps_registry (drm_init P kms).
Proof.
  unfold drm_init, gralloc_drm_create, init_drv_from_fd, call_drv_create.
  solve_keeps_registry.
Qed.

(** Every entry point of the module leaves [drm_bo_handle_map] as it found
    it: the registry of a process stays empty. *)
Lemma registry_never_written P :
  (∀ handle, keeps_registry (drm_mod_register_buffer P handle)) ∧
  (∀ handle, keeps_registry (drm_mod_unregister_buffer P handle)) ∧
  (∀ handle usage x y wd h ptr,
     keeps_registry (drm_mod_lock P handle usage x y wd h ptr)) ∧
  (∀ handle usage x y wd h ycbcr ptr,
     keeps_registry (drm_mod_lock_ycbcr P handle usage x y wd h ycbcr ptr)) ∧
  (∀ handle, keeps_registry (drm_mod_unlock P handle)) ∧
  (∀ handle, keeps_registry (drm_mod_free_gpu0 P handle)) ∧
  (∀ width height format usage handle stride,
     keeps_registry
       (drm_mod_alloc_gpu0 P width height format usage handle stride)).
Proof.
  pose proof (validate_handle_keeps P) as Hv.
  pose proof decref_keeps_registry as Hd.
  pose proof (lock_keeps_registry P) as Hl.
  pose proof (drm_init_keeps_registry P) as Hi.
  repeat split; intros;
    unfold drm_mod_register_buffer, drm_mod_unregister_buffer, drm_mod_lock,
      drm_mod_lock_ycbcr, drm_mod_unlock, drm_mod_free_gpu0,
      drm_mod_alloc_gpu0, gralloc_drm_handle_register,
      gralloc_drm_handle_unregister, gralloc_drm_bo_from_handle,
      gralloc_drm_bo_unlock, gralloc_drm_bo_create,
      gralloc_drm_bo_get_handle;
    solve_keeps_registry.
Qed.

(** With an empty registry every lookup fails: lock, unlock, unregister and
    free refuse every handle. *)
Lemma empty_registry_refuses P w handle usage x y wd h ptr :
  drm_bo_handle_map w = ∅ →
  drm_mod_lock P handle usage x y wd h ptr w = Done (- EINVAL, ptr) w ∧
  drm_mod_unlock P handle w = Done (- EINVAL) w ∧
  drm_mod_unregister_buffer P handle w = Done (- EINVAL) w ∧
  drm_mod_free_gpu0 P handle w = Done (- EINVAL) w.
Proof.
  intros Hempty.
  assert (Hreg : drm_bo_handle_map w !! handle = None)
    by (rewrite Hempty; apply lookup_empty).
  unfold drm_mod_lock, drm_mod_unlock, drm_mod_unregister_buffer,
    drm_mod_free_gpu0, gralloc_drm_handle_unregister,
    gralloc_drm_bo_from_handle, bind.
  rewrite (validate_handle_check_only P w handle Hreg).
  repeat split.
Qed.

(** An allocation with a known format does reach the backend. *)
Example alloc_known_format_allocates :
  ∃ w', drm_mod_alloc_gpu0 (sample_platform 0) 64 64 1 0x30 0 0
          (with_dmod_drm 900 fresh_world) = Done (0, 500, 0) w'
        ∧ calls w' = [need_fb_call 1001; drv_alloc_call 500;
                      handle_create_call 64 64 1 0x30]
        ∧ bos w' !! 1001 = Some (Bo 900 500 0 0 0 0 1)
        ∧ drm_bo_handle_map w' = ∅.
Proof.
  eexists. split; [reflexivity|]. split; [reflexivity|].
  split; reflexivity.
Qed.

(** C1. The code at the failing input: two registers of one handle, in a
    process whose registry does not have it, import two bos (two backend
    allocations, at 1000 and at 1001), each left with refcount 2, and the
    registry is as empty after them as before. *)
Theorem register_twice_imports_twice :
  ∃ w1 w2,
    gralloc_drm_handle_register (sample_platform 0) 7 900 (unseen_world 1 0x30)
      = Done 0 w1
    ∧ gralloc_drm_handle_register (sample_platform 0) 7 900 w1 = Done 0 w2
    ∧ drm_bo_handle_map w1 = ∅
    ∧ drm_bo_handle_map w2 = ∅
    ∧ calls w2 = [drv_alloc_call 7; drv_alloc_call 7]
    ∧ bos w2 !! 1000 = Some (Bo 900 7 1 0 0 0 2)
    ∧ bos w2 !! 1001 = Some (Bo 900 7 1 0 0 0 2).
Proof.
  eexists _, _.
  split; [reflexivity|]. split; [reflexivity|]. split; [reflexivity|].
  split; [reflexivity|]. split; [reflexivity|]. split; reflexivity.
Qed.

(** * Further properties *)

(** ** The lock engine *)

(** What a lock that returns an error has done: at most a map call. *)
Lemma lock_failure_inv P w bo usage x y wd h addr e a w' :
  gralloc_drm_bo_lock P bo usage x y wd h addr w = Done (e, a) w' →
  e ≠ 0 →
  w' = w ∨ ∃ write, w' = with_call (drv_map_call bo x y wd h write) w.
Proof.
  intros Hlock He.
  destruct (bos w !! bo) as [B|] eqn:Hbo.
  2: { unfold gralloc_drm_bo_lock in Hlock. unfold_monad.
       rewrite Hbo in Hlock. discriminate. }
  destruct (handles w !! bo_handle B) as [H|] eqn:Hhandle.
  2: { unfold gralloc_drm_bo_lock in Hlock. unfold_monad.
       rewrite Hbo, Hhandle in Hlock. discriminate. }
  destruct (usage_mismatch (h_usage H) usage) eqn:Hm.
  { rewrite (lock_refused P w bo B H Hbo Hhandle) in Hlock by auto.
    inversion Hlock. auto. }
  destruct (lock_conflict B usage) eqn:Hc.
  { rewrite (lock_refused P w bo B H Hbo Hhandle) in Hlock by auto.
    inversion Hlock. auto. }
  destruct (Z.eq_dec (Z.land (Z.lor usage (locked_for B)) sw_access_mask) 0)
    as [Hsw|Hsw].
  { rewrite (lock_unmapped P w bo B H Hbo Hhandle) in Hlock by assumption.
    inversion Hlock. congruence. }
  destruct (Z.eq_dec (bo_drm B) 0) as [Hdrm|Hdrm].
  { rewrite (lock_mapped_null P w bo B H Hbo Hhandle) in Hlock by assumption.
    discriminate. }
  rewrite (lock_mapped P w bo B H Hbo Hhandle) in Hlock by assumption.
  destruct ((drv_map P (calls w) bo x y wd h
               (write_flag (Z.lor usage (locked_for B))) addr).1 =? 0);
    inversion Hlock; [congruence | eauto].
Qed.

(** X1. A lock that returns an error, whichever it is (usage mismatch,
    incompatible nested lock, or the error of the backend's map), leaves the
    registry, every bo, every handle and the device pointer as they were,
    and has made at most one external call, a map of that bo. *)
Theorem lock_failure_changes_nothing (P : platform) (w : world)
    (bo usage x y wd h addr e a : Z) (w' : world) :
  gralloc_drm_bo_lock P bo usage x y wd h addr w = Done (e, a) w' →
  e ≠ 0 →
  drm_bo_handle_map w' = drm_bo_handle_map w ∧ bos w' = bos w ∧
  handles w' = handles w ∧ dmod_drm w' = dmod_drm w ∧
  (calls w' = calls w
   ∨ ∃ write, calls w' = drv_map_call bo x y wd h write :: calls w).
Proof.
  intros Hlock He.
  destruct (lock_failure_inv P w bo usage x y wd h addr e a w' Hlock He)
    as [-> | [write ->]]; repeat split; [left | right; exists write];
    reflexivity.
Qed.

Lemma lock_failure_changes_nothing_witness :
  drm_bo_handle_map (with_call (drv_map_call 100 0 0 64 64 1)
                       (known_world 1 0x30 (Bo 900 7 0 0 0 0 1)))
  = drm_bo_handle_map (known_world 1 0x30 (Bo 900 7 0 0 0 0 1))
  ∧ bos (with_call (drv_map_call 100 0 0 64 64 1)
           (known_world 1 0x30 (Bo 900 7 0 0 0 0 1)))
    = bos (known_world 1 0x30 (Bo 900 7 0 0 0 0 1))
  ∧ handles (with_call (drv_map_call 100 0 0 64 64 1)
               (known_world 1 0x30 (Bo 900 7 0 0 0 0 1)))
    = handles (known_world 1 0x30 (Bo 900 7 0 0 0 0 1))
  ∧ dmod_drm (with_call (drv_map_call 100 0 0 64 64 1)
                (known_world 1 0x30 (Bo 900 7 0 0 0 0 1)))
    = dmod_drm (known_world 1 0x30 (Bo 900 7 0 0 0 0 1))
  ∧ (calls (with_call (drv_map_call 100 0 0 64 64 1)
              (known_world 1 0x30 (Bo 900 7 0 0 0 0 1)))
     = calls (known_world 1 0x30 (Bo 900 7 0 0 0 0 1))
     ∨ ∃ write,
         calls (with_call (drv_map_call 100 0 0 64 64 1)
                  (known_world 1 0x30 (Bo 900 7 0 0 0 0 1)))
         = drv_map_call 100 0 0 64 64 write
           :: calls (known_world 1 0x30 (Bo 900 7 0 0 0 0 1))).
Proof.
  apply (lock_failure_changes_nothing (sample_platform (-12))
           (known_world 1 0x30 (Bo 900 7 0 0 0 0 1))
           100 0x30 0 0 64 64 0 (-12) 4096
           (with_call (drv_map_call 100 0 0 64 64 1)
              (known_world 1 0x30 (Bo 900 7 0 0 0 0 1))) eq_refl).
  discriminate.
Defined.

(** X2. Lock and unlock keep the lock state coherent: from a bo whose
    [lock_count] is not negative and whose [locked_for] is empty when the
    count is 0, every lock that returns (granted or refused) and every unlock
    leave a bo in that same condition. *)
Theorem lock_state_preserved (P : platform) (w : world) (bo : Z)
    (B : gralloc_drm_bo_t) :
  bos w !! bo = Some B →
  lock_state_ok B →
  lock_count B < INT_MAX →
  (∀ usage x y wd h addr r w',
     gralloc_drm_bo_lock P bo usage x y wd h addr w = Done r w' →
     ∃ B', bos w' !! bo = Some B' ∧ lock_state_ok B')
  ∧ (∀ w', gralloc_drm_bo_unlock bo w = Done tt w' →
     ∃ B', bos w' !! bo = Some B' ∧ lock_state_ok B').
Proof.
  intros Hbo [Hnonneg Hclear] Hmax. split.
  - intros usage x y wd h addr [e a] w' Hlock.
    destruct (Z.eq_dec e 0) as [->|He].
    + destruct (handles w !! bo_handle B) as [H|] eqn:Hhandle.
      2: { unfold gralloc_drm_bo_lock in Hlock. unfold_monad.
           rewrite Hbo, Hhandle in Hlock. discriminate. }
      destruct (lock_success_inv P w bo B H usage x y wd h addr a w'
                  Hbo Hhandle Hlock) as (_ & _ & Hcases).
      rewrite wrap_int_small in Hcases by (unfold INT_MAX in *; lia).
      eexists. split.
      * destruct Hcases as [(_ & _ & ->) | (_ & _ & _ & ->)];
          cbn [bos with_bos with_call]; apply lookup_insert_eq.
      * unfold lock_state_ok. cbn [lock_count locked_for set_lock_state].
        split; lia.
    + destruct (lock_failure_inv P w bo usage x y wd h addr e a w' Hlock He)
        as [-> | [write ->]];
        exists B; (split; [exact Hbo | split; assumption]).
  - intros w' Hunlock.
    destruct (Z.eq_dec (lock_count B) 0) as [Hz|Hnz].
    + rewrite (unlock_unlocked w bo B Hbo Hz) in Hunlock.
      inversion Hunlock. subst w'.
      exists B. split; [exact Hbo | split; assumption].
    + unfold gralloc_drm_bo_unlock in Hunlock. unfold_monad.
      rewrite Hbo in Hunlock.
      apply Z.eqb_neq in Hnz. rewrite Hnz in Hunlock.
      apply Z.eqb_neq in Hnz.
      rewrite wrap_int_small in Hunlock by (unfold INT_MAX in *; lia).
      assert (Hstore : ∀ w0, bos w0 = bos w →
                match bos w0 !! bo with
                | Some _ =>
                    Done tt (with_bos (insert bo (set_lock_state
                               (lock_count B - 1)
                               (if lock_count B - 1 =? 0 then 0
                                else locked_for B) B)) w0)
                | None => Fault
                end = Done tt w' →
                ∃ B', bos w' !! bo = Some B' ∧ lock_state_ok B').
      { intros w0 Hsame Hrun. rewrite Hsame, Hbo in Hrun.
        inversion Hrun. subst w'. eexists. split.
        - cbn [bos with_bos]. apply lookup_insert_eq.
        - unfold lock_state_ok. cbn [lock_count locked_for set_lock_state].
          split; [lia|]. intros Hz. apply Z.eqb_eq in Hz. rewrite Hz.
          reflexivity. }
      destruct (negb (Z.land (locked_for B) sw_access_mask =? 0)).
      * destruct (bo_drm B =? 0); [discriminate|].
        eapply Hstore; [|exact Hunlock]. reflexivity.
      * eapply Hstore; [|exact Hunlock]. reflexivity.
Qed.

Lemma lock_state_preserved_witness :
  (∃ B', bos (with_bos (insert 100 (Bo 900 7 0 0 1 0x30 1))
                (with_call (drv_map_call 100 0 0 64 64 1)
                   (known_world 1 0x30 (Bo 900 7 0 0 0 0 1)))) !! 100
         = Some B'
         ∧ lock_state_ok B')
  ∧ (∃ B', bos (with_bos (insert 100 (Bo 900 7 0 0 1 0x30 1))
                  (with_call (drv_unmap_call 100)
                     (known_world 1 0x30 (Bo 900 7 0 0 2 0x30 1)))) !! 100
           = Some B'
           ∧ lock_state_ok B')
  ∧ (∃ B', bos (with_bos (insert 100 (Bo 900 7 0 0 0 0 1))
                  (with_call (drv_unmap_call 100)
                     (known_world 1 0x30 (Bo 900 7 0 0 1 0x30 1)))) !! 100
           = Some B'
           ∧ lock_state_ok B').
Proof.
  split; [|split].
  - apply (proj1 (lock_state_preserved (sample_platform 0)
                    (known_world 1 0x30 (Bo 900 7 0 0 0 0 1)) 100
                    (Bo 900 7 0 0 0 0 1) eq_refl
                    ltac:(unfold lock_state_ok; cbn; split; [lia | reflexivity])
                    ltac:(unfold INT_MAX; cbn; lia))
             0x30 0 0 64 64 0 (0, 4096)).
    reflexivity.
  - apply (proj2 (lock_state_preserved (sample_platform 0)
                    (known_world 1 0x30 (Bo 900 7 0 0 2 0x30 1)) 100
                    (Bo 900 7 0 0 2 0x30 1) eq_refl
                    ltac:(unfold lock_state_ok; cbn; split; [lia | lia])
                    ltac:(unfold INT_MAX; cbn; lia))).
    reflexivity.
  - apply (proj2 (lock_state_preserved (sample_platform 0)
                    (known_world 1 0x30 (Bo 900 7 0 0 1 0x30 1)) 100
                    (Bo 900 7 0 0 1 0x30 1) eq_refl
                    ltac:(unfold lock_state_ok; cbn; split; [lia | lia])
                    ltac:(unfold INT_MAX; cbn; lia))).
    reflexivity.
Defined.

(** X3. A lock granted on a bo that is already locked never widens
    [locked_for]: it adds one to [lock_count] and leaves the accumulated
    usage exactly as it was. *)
Theorem nested_lock_keeps_mask (P : platform) (w : world) (bo : Z)
    (B : gralloc_drm_bo_t) (H : gralloc_drm_handle_t)
    (usage x y wd h addr a : Z) (w' : world) :
  bos w !! bo = Some B →
  handles w !! bo_handle B = Some H →
  0 < lock_count B < INT_MAX →
  gralloc_drm_bo_lock P bo usage x y wd h addr w = Done (0, a) w' →
  bos w' !! bo = Some (set_lock_state (lock_count B + 1) (locked_for B) B).
Proof.
  intros Hbo Hhandle Hrange Hlock.
  destruct (lock_success_inv P w bo B H usage x y wd h addr a w'
              Hbo Hhandle Hlock) as (_ & Hc & Hcases).
  rewrite lor_lor_same in Hcases.
  rewrite wrap_int_small in Hcases by (unfold INT_MAX in *; lia).
  assert (Hsub : Z.land (locked_for B) usage = usage).
  { destruct (Z.eq_dec (Z.land (locked_for B) usage) usage) as [He|He];
      [exact He|].
    assert (lock_conflict B usage = true)
      by (apply lock_conflict_true; split; [lia | exact He]).
    congruence. }
  rewrite (lor_absorb _ _ Hsub) in Hcases.
  destruct Hcases as [(_ & _ & ->) | (_ & _ & _ & ->)];
    cbn [bos with_bos with_call]; apply lookup_insert_eq.
Qed.

Lemma nested_lock_keeps_mask_witness :
  bos (with_bos (insert 100 (Bo 900 7 0 0 2 0x130 1))
         (with_call (drv_map_call 100 0 0 64 64 1)
            (known_world 1 0x130 (Bo 900 7 0 0 1 0x130 1)))) !! 100
  = Some (set_lock_state (1 + 1) 0x130 (Bo 900 7 0 0 1 0x130 1)).
Proof.
  apply (nested_lock_keeps_mask (sample_platform 0)
           (known_world 1 0x130 (Bo 900 7 0 0 1 0x130 1)) 100
           (Bo 900 7 0 0 1 0x130 1) (Handle 64 64 1 0x130 5 (-1) 64)
           0x100 0 0 64 64 0 4096 _ eq_refl eq_refl).
  - unfold INT_MAX. cbn. lia.
  - reflexivity.
Defined.

(** X4. When the lock under a planar lock is refused or its map fails, the
    planar lock returns that error, leaves the caller's [*ycbcr] unwritten
    and leaves every bo as it was. *)
Theorem lock_ycbcr_lock_failure (P : platform) (w : world) (bhandle bo : Z)
    (B : gralloc_drm_bo_t) (H : gralloc_drm_handle_t)
    (usage x y wd h : Z) (ycbcr : android_ycbcr) (ptr e p : Z) (w' : world) :
  drm_bo_handle_map w !! bhandle = Some bo →
  bo ≠ 0 →
  bos w !! bo = Some B →
  handles w !! bo_handle B = Some H →
  h_format H = HAL_PIXEL_FORMAT_YCbCr_420_888 →
  gralloc_drm_bo_lock P bo (wrap_uint usage) x y wd h ptr w = Done (e, p) w' →
  e ≠ 0 →
  drm_mod_lock_ycbcr P bhandle usage x y wd h ycbcr ptr w = Done (e, ycbcr) w'
  ∧ bos w' = bos w.
Proof.
  intros Hreg Hnz Hbo Hhandle Hfmt Hlock He. split.
  - unfold drm_mod_lock_ycbcr, gralloc_drm_bo_from_handle, bind.
    rewrite (validate_handle_known P w bhandle 0 bo Hreg).
    apply Z.eqb_neq in Hnz. rewrite Hnz.
    unfold load_bo, load_handle. rewrite Hbo, Hhandle.
    rewrite Hfmt, Z.eqb_refl. cbn [negb].
    rewrite Hlock. cbn [fst].
    apply Z.eqb_neq in He. rewrite He. reflexivity.
  - destruct (lock_failure_inv P w bo _ _ _ _ _ _ _ _ _ Hlock He)
      as [-> | [write ->]]; reflexivity.
Qed.

Lemma lock_ycbcr_lock_failure_witness :
  drm_mod_lock_ycbcr (sample_platform 0) 7 0x30 0 0 64 64
      (Ycbcr 1 2 3 4 5 6) 57005
      (known_world 0x23 0x200 (Bo 900 7 0 0 0 0 1))
    = Done (-22, Ycbcr 1 2 3 4 5 6)
        (known_world 0x23 0x200 (Bo 900 7 0 0 0 0 1))
  ∧ bos (known_world 0x23 0x200 (Bo 900 7 0 0 0 0 1))
    = bos (known_world 0x23 0x200 (Bo 900 7 0 0 0 0 1)).
Proof.
  apply (lock_ycbcr_lock_failure (sample_platform 0)
           (known_world 0x23 0x200 (Bo 900 7 0 0 0 0 1)) 7 100
           (Bo 900 7 0 0 0 0 1) (Handle 64 64 0x23 0x200 5 (-1) 64)
           0x30 0 0 64 64 (Ycbcr 1 2 3 4 5 6) 57005 (-22) 57005 _
           eq_refl ltac:(discriminate) eq_refl eq_refl eq_refl eq_refl).
  discriminate.
Defined.

(** ** Registering handles *)

Lemma with_call_changes c w : with_call c w ≠ w.
Proof.
  intros Heq. apply (f_equal calls) in Heq. cbn in Heq.
  apply (f_equal (@length call)) in Heq. cbn in Heq. lia.
Qed.

(** The lookup of a handle that is not registered and cannot be imported. *)
Lemma validate_handle_refuses P w handle drm name fd :
  drm_bo_handle_map w !! handle = None →
  (if handle =? 0 then ret 0
   else H <- load_handle handle ;; ret (h_name H)) w = Done name w →
  (if handle =? 0 then ret (-1)
   else H <- load_handle handle ;; ret (h_prime_fd H)) w = Done fd w →
  name = 0 ∧ fd < 0 ∨ drm = 0 →
  validate_handle P handle drm w = Done 0 w.
Proof.
  intros Hreg Hname Hfd Hrefused.
  unfold validate_handle, gralloc_handle. unfold_monad. rewrite Hreg.
  destruct (drm =? 0) eqn:Hdrm; [reflexivity|].
  destruct Hrefused as [[Hn Hp]|Hz]; [|subst drm; discriminate].
  destruct (handle =? 0); [reflexivity|].
  destruct (handles w !! handle) as [H|]; [|discriminate].
  assert (Hn' : h_name H = 0) by (inversion Hname; lia).
  assert (Hp' : h_prime_fd H < 0) by (inversion Hfd; lia).
  rewrite Hn'. apply Z.leb_gt in Hp'. rewrite Hp'. reflexivity.
Qed.

(** The import of a handle for which the backend returns NULL. *)
Lemma validate_handle_alloc_null P w handle drm H :
  drm_bo_handle_map w !! handle = None →
  drm ≠ 0 → handle ≠ 0 →
  handles w !! handle = Some H →
  h_name H ≠ 0 ∨ 0 ≤ h_prime_fd H →
  drv_alloc P (calls w) handle H = None →
  validate_handle P handle drm w = Fault.
Proof.
  intros Hreg Hdrm Hnz Hhandle Hvalid Halloc.
  unfold validate_handle, gralloc_handle. unfold_monad. rewrite Hreg.
  apply Z.eqb_neq in Hdrm, Hnz. rewrite Hdrm, Hnz, Hhandle.
  assert (Hv : negb (h_name H =? 0) || (0 <=? h_prime_fd H) = true).
  { apply orb_true_iff. destruct Hvalid as [Hn|Hp].
    - left. apply negb_true_iff, Z.eqb_neq. exact Hn.
    - right. apply Z.leb_le. exact Hp. }
  rewrite Hv, Halloc. reflexivity.
Qed.

(** X5. For a handle the registry does not have, a register is refused with
    -EINVAL, and the backend is not asked, exactly when the handle carries no
    memory: [gralloc_drm_get_gem_handle] gives 0 and
    [gralloc_drm_get_prime_fd] a negative value (a NULL handle is such a
    handle).  With a NULL device every such register is refused; with a
    device and a handle that carries memory, every register that returns has
    made exactly one backend alloc. *)
Theorem register_unseen_handle (P : platform) (w : world)
    (handle drm name fd : Z) :
  drm_bo_handle_map w !! handle = None →
  gralloc_drm_get_gem_handle handle w = Done name w →
  gralloc_drm_get_prime_fd handle w = Done fd w →
  (name = 0 ∧ fd < 0 ∨ drm = 0 →
   gralloc_drm_handle_register P handle drm w = Done (- EINVAL) w)
  ∧
  (¬ (name = 0 ∧ fd < 0) → drm ≠ 0 →
   ∀ r w', gralloc_drm_handle_register P handle drm w = Done r w' →
           calls w' = drv_alloc_call handle :: calls w).
Proof.
  intros Hreg Hname Hfd.
  unfold gralloc_drm_get_gem_handle, gralloc_drm_get_prime_fd,
    gralloc_handle in *.
  split.
  - intros Hrefused.
    unfold gralloc_drm_handle_register, bind.
    rewrite (validate_handle_refuses P w handle drm name fd Hreg Hname Hfd
               Hrefused).
    reflexivity.
  - intros Hvalid Hdrm r w'.
    destruct (handle =? 0) eqn:Hnull.
    { unfold ret in *. inversion Hname. inversion Hfd. subst name fd.
      exfalso. apply Hvalid. split; [reflexivity | lia]. }
    unfold bind, load_handle, ret in Hname, Hfd.
    destruct (handles w !! handle) as [H|] eqn:Hhandle; [|discriminate].
    inversion Hname. inversion Hfd. subst name fd. clear Hname Hfd.
    assert (Hv : h_name H ≠ 0 ∨ 0 ≤ h_prime_fd H) by lia.
    apply Z.eqb_neq in Hnull.
    unfold gralloc_drm_handle_register, bind.
    destruct (drv_alloc P (calls w) handle H) as [[[bo B] H']|] eqn:Halloc.
    + rewrite (validate_handle_import P w handle drm H bo B H'
                 Hreg Hdrm Hnull Hhandle Hv Halloc).
      destruct (bo =? 0); [intros Hrun; inversion Hrun; reflexivity|].
      unfold load_bo, store_bo, ret. cbn [bos with_bos].
      rewrite !lookup_insert_eq. cbn [bos with_bos].
      rewrite lookup_insert_eq.
      intros Hrun. inversion Hrun. reflexivity.
    + rewrite (validate_handle_alloc_null P w handle drm H
                 Hreg Hdrm Hnull Hhandle Hv Halloc).
      discriminate.
Qed.

Lemma register_unseen_handle_witness :
  gralloc_drm_handle_register (sample_platform 0) 7 900 memoryless_world
  = Done (- EINVAL) memoryless_world
  ∧ calls (with_bos (insert 1000 (Bo 900 7 1 0 0 0 2))
             (with_call (drv_alloc_call 7) (unseen_world 1 0x30)))
    = drv_alloc_call 7 :: calls (unseen_world 1 0x30).
Proof.
  split.
  - apply (proj1 (register_unseen_handle (sample_platform 0)
             memoryless_world 7 900 0 (-1) ltac:(reflexivity) ltac:(reflexivity)
             ltac:(reflexivity))).
    left. split; [reflexivity | lia].
  - apply (proj2 (register_unseen_handle (sample_platform 0)
             (unseen_world 1 0x30) 7 900 5 (-1) ltac:(reflexivity)
             ltac:(reflexivity) ltac:(reflexivity))
             ltac:(intros [Hn _]; discriminate) ltac:(discriminate) 0).
    reflexivity.
Defined.

(** X6. [validate_handle] does not test what the backend's alloc returns:
    when the backend cannot import a handle that carries memory (alloc
    returns NULL), the register writes [bo->drm] through the NULL pointer. *)
Theorem register_import_failure_faults (P : platform) (w : world)
    (handle drm : Z) (H : gralloc_drm_handle_t) :
  drm_bo_handle_map w !! handle = None →
  drm ≠ 0 → handle ≠ 0 →
  handles w !! handle = Some H →
  h_name H ≠ 0 ∨ 0 ≤ h_prime_fd H →
  drv_alloc P (calls w) handle H = None →
  gralloc_drm_handle_register P handle drm w = Fault.
Proof.
  intros Hreg Hdrm Hnz Hhandle Hvalid Halloc.
  unfold gralloc_drm_handle_register, bind.
  rewrite (validate_handle_alloc_null P w handle drm H
             Hreg Hdrm Hnz Hhandle Hvalid Halloc).
  reflexivity.
Qed.

Lemma register_import_failure_faults_witness :
  gralloc_drm_handle_register exhausted_platform 7 900 (unseen_world 1 0x30)
  = Fault.
Proof.
  apply (register_import_failure_faults exhausted_platform
           (unseen_world 1 0x30) 7 900 (Handle 64 64 1 0x30 5 (-1) 64)
           eq_refl ltac:(discriminate) ltac:(discriminate) eq_refl
           ltac:(left; discriminate) eq_refl).
Defined.

(** X7. A register followed by an unregister of a handle in the registry
    gives back the world it started from when the bo was created locally,
    and leaves an imported bo one reference short. *)
Theorem register_then_unregister (P : platform) (w : world)
    (handle drm bo : Z) (B : gralloc_drm_bo_t) :
  drm_bo_handle_map w !! handle = Some bo → bo ≠ 0 →
  bos w !! bo = Some B →
  0 < refcount B < INT_MAX →
  (imported B = 0 →
   run_ops P handle drm [Register; Unregister] w = Done [0; 0] w)
  ∧
  (imported B ≠ 0 → 2 ≤ refcount B →
   run_ops P handle drm [Register; Unregister] w =
   Done [0; 0] (with_bos (insert bo (set_refcount (refcount B - 1) B)) w)).
Proof.
  intros Hreg Hnz Hbo Hrange.
  assert (Hrun : ∀ d, unregister_step B = d → d < refcount B + 1 →
            run_ops P handle drm [Register; Unregister] w =
            Done [0; 0]
              (with_bos (insert bo (set_refcount (refcount B + 1 - d) B)) w)).
  { intros d Hd Hlt.
    rewrite (run_ops_referenced P handle drm bo [Register; Unregister] w B
               Hreg Hnz Hbo);
      cbn [count_after stays_referenced length map];
      rewrite ?Hd; unfold INT_MAX, UINT_MAX in *;
      first [ lia | reflexivity
            | apply andb_true_iff; split; [apply Z.ltb_lt; lia | reflexivity] ]. }
  split.
  - intros Himp.
    rewrite (Hrun 1) by (unfold unregister_step; rewrite ?Himp; cbn; lia).
    replace (refcount B + 1 - 1) with (refcount B) by lia.
    rewrite set_refcount_same, with_bos_same; [reflexivity|].
    apply insert_id. exact Hbo.
  - intros Himp Htwo.
    apply Z.eqb_neq in Himp.
    rewrite (Hrun 2) by (unfold unregister_step; rewrite ?Himp; lia).
    replace (refcount B + 1 - 2) with (refcount B - 1) by lia.
    reflexivity.
Qed.

Lemma register_then_unregister_witness :
  run_ops (sample_platform 0) 7 900 [Register; Unregister]
      (known_world 1 0x30 (Bo 900 7 0 0 0 0 1))
    = Done [0; 0] (known_world 1 0x30 (Bo 900 7 0 0 0 0 1))
  ∧ run_ops (sample_platform 0) 7 900 [Register; Unregister]
      (known_world 1 0x30 (Bo 900 7 1 0 0 0 3))
    = Done [0; 0]
        (with_bos (insert 100 (set_refcount (3 - 1) (Bo 900 7 1 0 0 0 3)))
           (known_world 1 0x30 (Bo 900 7 1 0 0 0 3))).
Proof.
  split.
  - apply (proj1 (register_then_unregister (sample_platform 0)
             (known_world 1 0x30 (Bo 900 7 0 0 0 0 1)) 7 900 100
             (Bo 900 7 0 0 0 0 1) eq_refl ltac:(discriminate) eq_refl
             ltac:(unfold INT_MAX; cbn; lia))).
    reflexivity.
  - apply (proj2 (register_then_unregister (sample_platform 0)
             (known_world 1 0x30 (Bo 900 7 1 0 0 0 3)) 7 900 100
             (Bo 900 7 1 0 0 0 3) eq_refl ltac:(discriminate) eq_refl
             ltac:(unfold INT_MAX; cbn; lia))).
    + discriminate.
    + cbn. lia.
Defined.

(** X8. An unregister of a bo that holds its last reference destroys the bo
    in its first decrement and then reads [bo->imported] from the struct the
    backend has released. *)
Theorem unregister_last_reference_faults (P : platform) (w : world)
    (handle bo : Z) (B : gralloc_drm_bo_t) :
  drm_bo_handle_map w !! handle = Some bo → bo ≠ 0 →
  bos w !! bo = Some B →
  refcount B = 1 → bo_drm B ≠ 0 →
  gralloc_drm_handle_unregister P handle w = Fault.
Proof.
  intros Hreg Hnz Hbo Hr Hdrm.
  unfold gralloc_drm_handle_unregister, bind.
  rewrite (validate_handle_known P w handle 0 bo Hreg).
  apply Z.eqb_neq in Hnz. rewrite Hnz.
  rewrite (decref_last w bo B Hbo Hr Hdrm).
  unfold load_bo. cbv zeta.
  destruct (imported B =? 0);
    cbn [bos with_handles with_call]; rewrite lookup_delete_eq; reflexivity.
Qed.

Lemma unregister_last_reference_faults_witness :
  gralloc_drm_handle_unregister (sample_platform 0) 7
    (known_world 1 0x30 (Bo 900 7 0 0 0 0 1)) = Fault.
Proof.
  apply (unregister_last_reference_faults (sample_platform 0)
           (known_world 1 0x30 (Bo 900 7 0 0 0 0 1)) 7 100
           (Bo 900 7 0 0 0 0 1) eq_refl ltac:(discriminate) eq_refl eq_refl
           ltac:(discriminate)).
Defined.

(** ** Allocating and freeing *)

(** The creation of a bo when the handle and the backend memory are there. *)
Lemma bo_create_success P w drm width height format usage hd H bo B H' :
  gralloc_handle_create P (calls w) width height format usage = Some (hd, H) →
  hd ≠ 0 → drm ≠ 0 →
  drv_alloc P (handle_create_call width height format usage :: calls w) hd H
    = Some (bo, B, H') →
  gralloc_drm_bo_create P drm width height format usage w =
  Done bo
    (World (drm_bo_handle_map w)
           (<[bo := Bo drm hd 0 0 (lock_count B) (locked_for B) 1]> (bos w))
           (<[hd := H']> (<[hd := H]> (handles w)))
           (dmod_drm w)
           (drv_alloc_call hd
            :: handle_create_call width height format usage :: calls w)).
Proof.
  intros Hcreate Hnz Hdrm Halloc.
  unfold gralloc_drm_bo_create, gralloc_handle. unfold_monad.
  rewrite Hcreate.
  apply Z.eqb_neq in Hnz, Hdrm. rewrite Hnz, Hdrm.
  cbn [calls with_call with_handles]. rewrite Halloc. reflexivity.
Qed.

(** X9. [gralloc_drm_bo_create] leaves nothing behind when it fails and a
    well-formed bo when it succeeds.  If no handle can be created it returns
    NULL and the backend is not asked.  If the backend's alloc returns NULL
    the new handle is deleted again, no bo is added and NULL is returned.  If
    both succeed the new bo has refcount 1, is not imported, has no
    framebuffer, points to the device and to the new handle, and the
    registry is not written. *)
Theorem bo_create_outcomes (P : platform) (w : world)
    (drm width height format usage : Z) :
  (gralloc_handle_create P (calls w) width height format usage = None →
   gralloc_drm_bo_create P drm width height format usage w =
   Done 0 (with_call (handle_create_call width height format usage) w))
  ∧
  (∀ hd H,
     gralloc_handle_create P (calls w) width height format usage
       = Some (hd, H) →
     hd ≠ 0 → drm ≠ 0 →
     drv_alloc P (handle_create_call width height format usage :: calls w)
       hd H = None →
     ∃ w', gralloc_drm_bo_create P drm width height format usage w = Done 0 w'
           ∧ bos w' = bos w
           ∧ handles w' !! hd = None
           ∧ drm_bo_handle_map w' = drm_bo_handle_map w
           ∧ calls w' = delete_handle_call hd :: drv_alloc_call hd
                        :: handle_create_call width height format usage
                        :: calls w)
  ∧
  (∀ hd H bo B H',
     gralloc_handle_create P (calls w) width height format usage
       = Some (hd, H) →
     hd ≠ 0 → drm ≠ 0 →
     drv_alloc P (handle_create_call width height format usage :: calls w)
       hd H = Some (bo, B, H') →
     ∃ w', gralloc_drm_bo_create P drm width height format usage w = Done bo w'
           ∧ bos w' !! bo
             = Some (Bo drm hd 0 0 (lock_count B) (locked_for B) 1)
           ∧ handles w' !! hd = Some H'
           ∧ drm_bo_handle_map w' = drm_bo_handle_map w).
Proof.
  split; [|split].
  - intros Hcreate.
    unfold gralloc_drm_bo_create. unfold_monad. rewrite Hcreate. reflexivity.
  - intros hd H Hcreate Hnz Hdrm Halloc.
    unfold gralloc_drm_bo_create, gralloc_handle. unfold_monad.
    rewrite Hcreate.
    apply Z.eqb_neq in Hnz, Hdrm. rewrite Hnz, Hdrm.
    cbn [calls with_call with_handles]. rewrite Halloc.
    eexists. split; [reflexivity|].
    cbn [bos handles drm_bo_handle_map calls with_handles with_call].
    repeat split. apply lookup_delete_eq.
  - intros hd H bo B H' Hcreate Hnz Hdrm Halloc.
    rewrite (bo_create_success P w drm width height format usage hd H bo B H'
               Hcreate Hnz Hdrm Halloc).
    eexists. split; [reflexivity|].
    cbn [bos handles drm_bo_handle_map].
    rewrite !lookup_insert_eq. repeat split.
Qed.

Lemma bo_create_outcomes_witness :
  (∃ w', gralloc_drm_bo_create exhausted_platform 900 64 64 1 0x30
           (with_dmod_drm 900 fresh_world) = Done 0 w'
         ∧ bos w' = bos (with_dmod_drm 900 fresh_world)
         ∧ handles w' !! 500 = None
         ∧ drm_bo_handle_map w'
           = drm_bo_handle_map (with_dmod_drm 900 fresh_world)
         ∧ calls w' = delete_handle_call 500 :: drv_alloc_call 500
                      :: handle_create_call 64 64 1 0x30
                      :: calls (with_dmod_drm 900 fresh_world))
  ∧
  (∃ w', gralloc_drm_bo_create (sample_platform 0) 900 64 64 1 0x30
           (with_dmod_drm 900 fresh_world) = Done 1001 w'
         ∧ bos w' !! 1001 = Some (Bo 900 500 0 0 0 0 1)
         ∧ handles w' !! 500 = Some (Handle 64 64 1 0x30 0 (-1) 0)
         ∧ drm_bo_handle_map w'
           = drm_bo_handle_map (with_dmod_drm 900 fresh_world)).
Proof.
  split.
  - apply (proj1 (proj2 (bo_create_outcomes exhausted_platform
             (with_dmod_drm 900 fresh_world) 900 64 64 1 0x30))
             500 (Handle 64 64 1 0x30 0 (-1) 0));
      [reflexivity | discriminate | discriminate | reflexivity].
  - apply (proj2 (proj2 (bo_create_outcomes (sample_platform 0)
             (with_dmod_drm 900 fresh_world) 900 64 64 1 0x30))
             500 (Handle 64 64 1 0x30 0 (-1) 0) 1001 (Bo 0 0 0 0 0 0 0)
             (Handle 64 64 1 0x30 0 (-1) 0));
      [reflexivity | discriminate | discriminate | reflexivity].
Defined.

(** X10. When attaching the framebuffer fails, [drm_mod_alloc_gpu0] returns
    the error of [gralloc_drm_bo_add_fb], leaves the caller's [*handle] and
    [*stride] unwritten, and takes the fresh bo down again: the backend frees
    it once, its handle is deleted, and neither is left in the process. *)
Theorem alloc_add_fb_failure_cleans_up (P : platform) (w : world)
    (width height format usage handle0 stride0 hd : Z)
    (H : gralloc_drm_handle_t) (bo : Z) (B : gralloc_drm_bo_t)
    (H' : gralloc_drm_handle_t) (err : Z) :
  gralloc_drm_get_bpp P format ≠ 0 →
  dmod_drm w ≠ 0 →
  gralloc_handle_create P (calls w) width height format usage = Some (hd, H) →
  hd ≠ 0 → bo ≠ 0 →
  drv_alloc P (handle_create_call width height format usage :: calls w) hd H
    = Some (bo, B, H') →
  gralloc_drm_bo_need_fb P
    (drv_alloc_call hd :: handle_create_call width height format usage
     :: calls w) bo ≠ 0 →
  gralloc_drm_bo_add_fb P
    (need_fb_call bo :: drv_alloc_call hd
     :: handle_create_call width height format usage :: calls w) bo = err →
  err ≠ 0 →
  ∃ w', drm_mod_alloc_gpu0 P width height format usage handle0 stride0 w
        = Done (err, handle0, stride0) w'
        ∧ bos w' !! bo = None
        ∧ handles w' !! hd = None
        ∧ calls w' = delete_handle_call hd :: drv_free_call bo
                     :: rm_fb_call bo :: add_fb_call bo :: need_fb_call bo
                     :: drv_alloc_call hd
                     :: handle_create_call width height format usage
                     :: calls w.
Proof.
  intros Hbpp Hdrm Hcreate Hnz Hbnz Halloc Hneed Hadd Herr.
  unfold drm_mod_alloc_gpu0.
  apply Z.eqb_neq in Hbpp. rewrite Hbpp.
  unfold bind at 1. unfold get_dmod_drm at 1.
  unfold bind at 1.
  rewrite (bo_create_success P w (dmod_drm w) width height format usage
             hd H bo B H' Hcreate Hnz Hdrm Halloc).
  apply Z.eqb_neq in Hbnz. rewrite Hbnz.
  unfold bind at 1. unfold get_calls at 1. cbn [calls].
  unfold bind at 1. unfold emit at 1.
  unfold bind at 1.
  apply Z.eqb_neq in Hneed. rewrite Hneed. cbn [negb].
  unfold bind at 1. unfold get_calls at 1. cbn [calls with_call].
  unfold bind at 1. unfold emit at 1. unfold ret at 1.
  rewrite Hadd. apply Z.eqb_neq in Herr. rewrite Herr. cbn [negb].
  unfold bind at 1.
  erewrite decref_last;
    [| cbn [bos with_call]; apply lookup_insert_eq | reflexivity | exact Hdrm].
  cbn [imported bo_handle Z.eqb]. unfold ret.
  eexists. split; [reflexivity|].
  cbn [bos handles calls with_handles with_call].
  rewrite delete_insert_eq, !lookup_delete_eq. repeat split.
Qed.

Lemma alloc_add_fb_failure_cleans_up_witness :
  ∃ w', drm_mod_alloc_gpu0 (fb_failing_platform (-12)) 64 64 1 0x1000 0 0
          (with_dmod_drm 900 fresh_world) = Done (-12, 0, 0) w'
        ∧ bos w' !! 1001 = None
        ∧ handles w' !! 500 = None
        ∧ calls w' = delete_handle_call 500 :: drv_free_call 1001
                     :: rm_fb_call 1001 :: add_fb_call 1001
                     :: need_fb_call 1001 :: drv_alloc_call 500
                     :: handle_create_call 64 64 1 0x1000
                     :: calls (with_dmod_drm 900 fresh_world).
Proof.
  apply (alloc_add_fb_failure_cleans_up (fb_failing_platform (-12))
           (with_dmod_drm 900 fresh_world) 64 64 1 0x1000 0 0 500
           (Handle 64 64 1 0x1000 0 (-1) 0) 1001 (Bo 0 0 0 0 0 0 0)
           (Handle 64 64 1 0x1000 9 (-1) 256) (-12));
    first [reflexivity | discriminate].
Defined.

(** X11. A successful allocation that needs no framebuffer returns the
    handle of the new bo and its stride in pixels: the byte stride the
    backend set, divided (towards zero) by the bytes per pixel.  The new bo
    has refcount 1.  The registry is not written, so the handle just
    returned is unknown to the process: locking it and freeing it are both
    refused with -EINVAL. *)
Theorem alloc_success_not_registered (P : platform) (w : world)
    (width height format usage handle0 stride0 hd : Z)
    (H : gralloc_drm_handle_t) (bo : Z) (B : gralloc_drm_bo_t)
    (H' : gralloc_drm_handle_t) :
  gralloc_drm_get_bpp P format ≠ 0 →
  dmod_drm w ≠ 0 →
  gralloc_handle_create P (calls w) width height format usage = Some (hd, H) →
  hd ≠ 0 → bo ≠ 0 →
  drv_alloc P (handle_create_call width height format usage :: calls w) hd H
    = Some (bo, B, H') →
  gralloc_drm_bo_need_fb P
    (drv_alloc_call hd :: handle_create_call width height format usage
     :: calls w) bo = 0 →
  ∃ w', drm_mod_alloc_gpu0 P width height format usage handle0 stride0 w
        = Done (0, hd,
                wrap_int (Z.quot (h_stride H') (gralloc_drm_get_bpp P format)))
            w'
        ∧ bos w' !! bo
          = Some (Bo (dmod_drm w) hd 0 0 (lock_count B) (locked_for B) 1)
        ∧ drm_bo_handle_map w' = drm_bo_handle_map w
        ∧ (drm_bo_handle_map w !! hd = None →
           (∀ lusage x y wd h ptr,
              drm_mod_lock P hd lusage x y wd h ptr w'
              = Done (- EINVAL, ptr) w')
           ∧ drm_mod_free_gpu0 P hd w' = Done (- EINVAL) w').
Proof.
  intros Hbpp Hdrm Hcreate Hnz Hbnz Halloc Hneed.
  unfold drm_mod_alloc_gpu0.
  apply Z.eqb_neq in Hbpp. rewrite Hbpp.
  unfold bind at 1. unfold get_dmod_drm at 1.
  unfold bind at 1.
  rewrite (bo_create_success P w (dmod_drm w) width height format usage
             hd H bo B H' Hcreate Hnz Hdrm Halloc).
  apply Z.eqb_neq in Hbnz. rewrite Hbnz.
  unfold bind at 1. unfold get_calls at 1. cbn [calls].
  unfold bind at 1. unfold emit at 1.
  unfold bind at 1.
  rewrite Hneed. cbn [negb Z.eqb]. unfold ret at 1. cbn [negb Z.eqb].
  unfold gralloc_drm_bo_get_handle. unfold_monad.
  cbn [bos handles with_call]. rewrite lookup_insert_eq.
  cbn [bos handles with_call bo_handle]. rewrite lookup_insert_eq.
  cbn [fst snd h_stride].
  eexists. split; [reflexivity|].
  cbn [bos drm_bo_handle_map with_call]. rewrite lookup_insert_eq.
  split; [reflexivity|]. split; [reflexivity|].
  intros Hunknown.
  set (w' := with_call (need_fb_call bo) _).
  assert (Hreg : drm_bo_handle_map w' !! hd = None) by exact Hunknown.
  unfold drm_mod_lock, drm_mod_free_gpu0, gralloc_drm_bo_from_handle, bind.
  rewrite (validate_handle_check_only P w' hd Hreg).
  split; [intros; reflexivity | reflexivity].
Qed.

Lemma alloc_success_not_registered_witness :
  ∃ w', drm_mod_alloc_gpu0 (sample_platform 0) 64 64 1 0x30 0 0
          (with_dmod_drm 900 fresh_world)
        = Done (0, 500, wrap_int (Z.quot 0 4)) w'
        ∧ bos w' !! 1001 = Some (Bo 900 500 0 0 0 0 1)
        ∧ drm_bo_handle_map w'
          = drm_bo_handle_map (with_dmod_drm 900 fresh_world)
        ∧ (drm_bo_handle_map (with_dmod_drm 900 fresh_world) !! 500 = None →
           (∀ lusage x y wd h ptr,
              drm_mod_lock (sample_platform 0) 500 lusage x y wd h ptr w'
              = Done (- EINVAL, ptr) w')
           ∧ drm_mod_free_gpu0 (sample_platform 0) 500 w'
             = Done (- EINVAL) w').
Proof.
  apply (alloc_success_not_registered (sample_platform 0)
           (with_dmod_drm 900 fresh_world) 64 64 1 0x30 0 0 500
           (Handle 64 64 1 0x30 0 (-1) 0) 1001 (Bo 0 0 0 0 0 0 0)
           (Handle 64 64 1 0x30 0 (-1) 0));
    first [reflexivity | discriminate].
Defined.

(** X12. [drm_mod_free_gpu0] on a handle in the registry gives up one
    reference.  While others remain it only decrements the count.  When it
    was the last, the bo is destroyed with one backend free (and the handle
    of a locally created bo deleted), but the registry keeps its entry for
    the handle: a later free, unlock or lock of that handle reaches the
    released struct. *)
Theorem free_gives_up_one_reference (P : platform) (w : world)
    (handle bo : Z) (B : gralloc_drm_bo_t) :
  drm_bo_handle_map w !! handle = Some bo → bo ≠ 0 →
  bos w !! bo = Some B →
  (1 < refcount B ≤ INT_MAX →
   drm_mod_free_gpu0 P handle w =
   Done 0 (with_bos (insert bo (set_refcount (refcount B - 1) B)) w))
  ∧
  (refcount B = 1 → bo_drm B ≠ 0 →
   ∃ w', drm_mod_free_gpu0 P handle w = Done 0 w'
         ∧ bos w' !! bo = None
         ∧ drm_bo_handle_map w' !! handle = Some bo
         ∧ calls w' = (if imported B =? 0
                       then [delete_handle_call (bo_handle B)] else [])
                      ++ drv_free_call bo :: rm_fb_call bo :: calls w
         ∧ drm_mod_free_gpu0 P handle w' = Fault
         ∧ drm_mod_unlock P handle w' = Fault
         ∧ ∀ usage x y wd h ptr,
             drm_mod_lock P handle usage x y wd h ptr w' = Fault).
Proof.
  intros Hreg Hnz Hbo.
  apply Z.eqb_neq in Hnz.
  split.
  - intros Hrange.
    unfold drm_mod_free_gpu0, gralloc_drm_bo_from_handle, bind.
    rewrite (validate_handle_known P w handle 0 bo Hreg), Hnz.
    assert (Hw : wrap_uint (refcount B - 1) = refcount B - 1)
      by (apply wrap_uint_small; unfold INT_MAX, UINT_MAX in *; lia).
    rewrite (decref_keeps w bo B Hbo) by lia.
    rewrite Hw. reflexivity.
  - intros Hr Hdrm.
    unfold drm_mod_free_gpu0, gralloc_drm_bo_from_handle, bind.
    rewrite (validate_handle_known P w handle 0 bo Hreg), Hnz.
    rewrite (decref_last w bo B Hbo Hr Hdrm). unfold ret. cbv zeta.
    set (w' := if imported B =? 0 then _ else _).
    assert (Hgone : bos w' !! bo = None).
    { subst w'. destruct (imported B =? 0);
        cbn [bos with_handles with_call]; apply lookup_delete_eq. }
    assert (Hreg' : drm_bo_handle_map w' !! handle = Some bo).
    { subst w'. destruct (imported B =? 0); exact Hreg. }
    exists w'. split; [reflexivity|]. split; [exact Hgone|].
    split; [exact Hreg'|]. split.
    { subst w'. destruct (imported B =? 0); reflexivity. }
    rewrite (validate_handle_known P w' handle 0 bo Hreg'), Hnz.
    split; [|split].
    + unfold gralloc_drm_bo_decref, bind, load_bo. rewrite Hgone. reflexivity.
    + unfold drm_mod_unlock, gralloc_drm_bo_from_handle, bind.
      rewrite (validate_handle_known P w' handle 0 bo Hreg'), Hnz.
      unfold gralloc_drm_bo_unlock, bind, load_bo. rewrite Hgone. reflexivity.
    + intros usage x y wd h ptr.
      unfold drm_mod_lock, gralloc_drm_bo_from_handle, bind.
      rewrite (validate_handle_known P w' handle 0 bo Hreg'), Hnz.
      unfold gralloc_drm_bo_lock, bind, load_bo. rewrite Hgone. reflexivity.
Qed.

Lemma free_gives_up_one_reference_witness :
  drm_mod_free_gpu0 (sample_platform 0) 7
      (known_world 1 0x30 (Bo 900 7 0 0 0 0 2))
    = Done 0 (with_bos (insert 100 (set_refcount (2 - 1) (Bo 900 7 0 0 0 0 2)))
                (known_world 1 0x30 (Bo 900 7 0 0 0 0 2)))
  ∧ ∃ w', drm_mod_free_gpu0 (sample_platform 0) 7
            (known_world 1 0x30 (Bo 900 7 0 0 0 0 1)) = Done 0 w'
          ∧ bos w' !! 100 = None
          ∧ drm_bo_handle_map w' !! 7 = Some 100
          ∧ calls w' = [delete_handle_call 7]
                       ++ drv_free_call 100 :: rm_fb_call 100 :: []
          ∧ drm_mod_free_gpu0 (sample_platform 0) 7 w' = Fault
          ∧ drm_mod_unlock (sample_platform 0) 7 w' = Fault
          ∧ ∀ usage x y wd h ptr,
              drm_mod_lock (sample_platform 0) 7 usage x y wd h ptr w' = Fault.
Proof.
  split.
  - apply (proj1 (free_gives_up_one_reference (sample_platform 0)
             (known_world 1 0x30 (Bo 900 7 0 0 0 0 2)) 7 100
             (Bo 900 7 0 0 0 0 2) eq_refl ltac:(discriminate) eq_refl)).
    unfold INT_MAX. cbn. lia.
  - apply (proj2 (free_gives_up_one_reference (sample_platform 0)
             (known_world 1 0x30 (Bo 900 7 0 0 0 0 1)) 7 100
             (Bo 900 7 0 0 0 0 1) eq_refl ltac:(discriminate) eq_refl));
      [reflexivity | discriminate].
Defined.

(** ** Creating and initialising the device *)

Ltac solve_backend_enabled :=
  unfold backend_enabled; cbn [String.eqb Ascii.eqb Bool.eqb andb orb];
  repeat match goal with
         | Hb : _ = true |- _ => rewrite Hb
         | Hb : _ = false |- _ => rewrite Hb
         end;
  cbn [andb orb]; rewrite ?orb_true_r; reflexivity.

(** X13. [init_drv_from_fd] asks drmGetVersion once and creates at most one
    backend, and only one that is compiled in and matches the kernel
    driver's name (the pipe backend matches every name).  When drmGetVersion
    fails, gives no name, or names a driver for which no backend is compiled
    in, it returns NULL and creates nothing. *)
Theorem init_drv_only_enabled_backend (P : platform) (fd : Z) (w : world) :
  (∀ drv w', init_drv_from_fd P fd w = Done drv w' →
     (drv = 0 ∧ w' = with_call (drmGetVersion_call fd) w)
     ∨ ∃ backend name,
         drmGetVersion P (calls w) fd = Some (Some name)
         ∧ backend_enabled P backend name = true
         ∧ w' = with_call (drv_create_call backend fd)
                  (with_call (drmGetVersion_call fd) w)
         ∧ drv = gralloc_drm_drv_create P (drmGetVersion_call fd :: calls w)
                   backend fd name)
  ∧
  (drmGetVersion P (calls w) fd = None
   ∨ drmGetVersion P (calls w) fd = Some None
   ∨ (∃ name, drmGetVersion P (calls w) fd = Some (Some name)
              ∧ ∀ backend, backend_enabled P backend name = false) →
   init_drv_from_fd P fd w = Done 0 (with_call (drmGetVersion_call fd) w)).
Proof.
  split.
  - intros drv w'.
    unfold init_drv_from_fd, call_drv_create. unfold_monad.
    destruct (drmGetVersion P (calls w) fd) as [[name|]|] eqn:Hver;
      [| intros Hrun; inversion Hrun; auto ..].
    destruct (ENABLE_FREEDRENO P && (name =? "msm")%string) eqn:E1.
    { intros Hrun. inversion Hrun. right. exists "freedreno"%string, name.
      repeat split. solve_backend_enabled. }
    destruct (ENABLE_INTEL P && (name =? "i915")%string) eqn:E2.
    { intros Hrun. inversion Hrun. right. exists "intel"%string, name.
      repeat split. solve_backend_enabled. }
    destruct (ENABLE_RADEON P && (name =? "radeon")%string) eqn:E3.
    { intros Hrun. inversion Hrun. right. exists "radeon"%string, name.
      repeat split. solve_backend_enabled. }
    destruct (ENABLE_NOUVEAU P && (name =? "nouveau")%string) eqn:E4.
    { intros Hrun. inversion Hrun. right. exists "nouveau"%string, name.
      repeat split. solve_backend_enabled. }
    destruct (ENABLE_PIPE P) eqn:E5.
    { intros Hrun. inversion Hrun. right. exists "pipe"%string, name.
      repeat split. solve_backend_enabled. }
    intros Hrun. inversion Hrun. auto.
  - unfold init_drv_from_fd, call_drv_create. unfold_monad.
    intros [-> | [-> | (name & -> & Hnone)]]; [reflexivity | reflexivity |].
    pose proof (Hnone "freedreno"%string) as E1.
    pose proof (Hnone "intel"%string) as E2.
    pose proof (Hnone "radeon"%string) as E3.
    pose proof (Hnone "nouveau"%string) as E4.
    pose proof (Hnone "pipe"%string) as E5.
    unfold backend_enabled in E1, E2, E3, E4, E5.
    cbn [String.eqb Ascii.eqb Bool.eqb andb orb] in E1, E2, E3, E4, E5.
    repeat rewrite orb_false_r in E1. repeat rewrite orb_false_r in E2.
    repeat rewrite orb_false_r in E3. repeat rewrite orb_false_r in E4.
    repeat rewrite orb_false_r in E5.
    rewrite E1, E2, E3, E4, E5. reflexivity.
Qed.

Lemma init_drv_only_enabled_backend_witness :
  ((0 = 0 ∧ with_call (drmGetVersion_call 3) fresh_world
            = with_call (drmGetVersion_call 3) fresh_world)
   ∨ ∃ backend name,
       drmGetVersion exhausted_platform (calls fresh_world) 3
         = Some (Some name)
       ∧ backend_enabled exhausted_platform backend name = true
       ∧ with_call (drmGetVersion_call 3) fresh_world
         = with_call (drv_create_call backend 3)
             (with_call (drmGetVersion_call 3) fresh_world)
       ∧ 0 = gralloc_drm_drv_create exhausted_platform
               (drmGetVersion_call 3 :: calls fresh_world) backend 3 name)
  ∧ init_drv_from_fd exhausted_platform 3 fresh_world
    = Done 0 (with_call (drmGetVersion_call 3) fresh_world).
Proof.
  split.
  - apply (proj1 (init_drv_only_enabled_backend exhausted_platform 3
                    fresh_world) 0 (with_call (drmGetVersion_call 3) fresh_world)).
    reflexivity.
  - apply (proj2 (init_drv_only_enabled_backend exhausted_platform 3
                    fresh_world)).
    right. right. exists "vc4"%string. split; [reflexivity|].
    intros backend. unfold backend_enabled. cbn.
    rewrite !andb_false_r. reflexivity.
Defined.

Lemma fbdrv_lookup_none buf table :
  fbdrv_lookup buf table = None ↔ ∀ drv, (buf, drv) ∉ table.
Proof.
  induction table as [|[fb drv] table IH]; cbn [fbdrv_lookup].
  - split; [intros _ drv Hin; inversion Hin | reflexivity].
  - destruct (String.eqb buf fb) eqn:Heq.
    + apply String.eqb_eq in Heq. subst fb. split; [discriminate|].
      intros Hnot. exfalso. apply (Hnot drv). left.
    + apply String.eqb_neq in Heq. rewrite IH. split.
      * intros Hnot drv' Hin. apply elem_of_cons in Hin.
        destruct Hin as [Hhead|Htail]; [congruence | exact (Hnot drv' Htail)].
      * intros Hnot drv' Hin. apply (Hnot drv'). right. exact Hin.
Qed.





(** X15. When /proc/fb names a framebuffer driver that is not in
    [fbdrv_map], or names one whose DRM device cannot be opened,
    [gralloc_drm_create] never calls [init_drv_from_fd]: it tests the [drv]
    field of the struct it has just allocated, which nothing has written.
    If that field holds NULL it closes the negative file descriptor, deletes
    the struct and returns NULL; if it holds anything else it returns the
    struct as the device. *)
Theorem create_without_driver (P : platform) (w : world) (card : Z)
    (buf : string) :
  proc_fb P (calls w) = Some (card, buf) →
  (new_gralloc_drm P (read_proc_fb_call :: calls w)).1 ≠ 0 →
  let new := new_gralloc_drm P (read_proc_fb_call :: calls w) in
  let w0 := with_call new_drm_call (with_call read_proc_fb_call w) in
  ((∀ drv, (buf, drv) ∉ fbdrv_map) →
   gralloc_drm_create P w =
   if new.2 =? 0
   then Done 0 (with_call (delete_drm_call new.1)
                  (with_call (close_call (-1)) w0))
   else Done new.1 w0)
  ∧
  (∀ name, fbdrv_lookup buf fbdrv_map = Some name →
     drmOpen P (calls w0) name < 0 →
     gralloc_drm_create P w =
     if new.2 =? 0
     then Done 0 (with_call (delete_drm_call new.1)
                    (with_call (close_call (drmOpen P (calls w0) name))
                       (with_call (drmOpen_call name) w0)))
     else Done new.1 (with_call (drmOpen_call name) w0)).
Proof.
  intros Hfb Hnew new w0. subst new w0. apply Z.eqb_neq in Hnew.
  split.
  - intros Hunknown. apply fbdrv_lookup_none in Hunknown.
    unfold gralloc_drm_create. unfold_monad.
    rewrite Hfb. cbn [calls with_call]. rewrite Hnew, Hunknown.
    change (-1 <? 0) with true. cbv beta iota.
    destruct (_.2 =? 0); reflexivity.
  - intros name Hlookup Hopen.
    unfold gralloc_drm_create. unfold_monad.
    rewrite Hfb. cbn [calls with_call] in *. rewrite Hnew, Hlookup.
    cbn [calls with_call].
    apply Z.ltb_lt in Hopen. rewrite Hopen.
    destruct (_.2 =? 0); reflexivity.
Qed.

Lemma create_without_driver_witness :
  gralloc_drm_create exhausted_platform fresh_world =
  Done 0 (with_call (delete_drm_call 900)
            (with_call (close_call (-1))
               (with_call new_drm_call
                  (with_call read_proc_fb_call fresh_world)))).
Proof.
  apply (proj1 (create_without_driver exhausted_platform fresh_world 0
                  "vesafb" ltac:(reflexivity) ltac:(discriminate))).
  apply fbdrv_lookup_none. reflexivity.
Defined.

Lemma drm_init_ready P kms w :
  dmod_drm w ≠ 0 →
  drm_init P kms w =
  if kms =? 0 then Done 0 w
  else Done (gralloc_drm_init_kms P (calls w) (dmod_drm w))
            (with_call (init_kms_call (dmod_drm w)) w).
Proof.
  intros Hready. unfold drm_init. unfold_monad.
  apply Z.eqb_neq in Hready. rewrite Hready. cbn [Z.eqb andb].
  destruct (kms =? 0); reflexivity.
Qed.

(** X16. Once [drm_init] has succeeded the device is there to stay: a
    further [drm_init] without KMS changes nothing and returns 0, and one
    with KMS creates nothing, calls [gralloc_drm_init_kms] once, returns what
    it returns and keeps the device whatever that is. *)
Theorem drm_init_idempotent (P : platform) (w w1 : world) :
  drm_init P 0 w = Done 0 w1 →
  dmod_drm w1 ≠ 0
  ∧ drm_init P 0 w1 = Done 0 w1
  ∧ ∀ kms, kms ≠ 0 →
      drm_init P kms w1 =
      Done (gralloc_drm_init_kms P (calls w1) (dmod_drm w1))
           (with_call (init_kms_call (dmod_drm w1)) w1)
      ∧ dmod_drm (with_call (init_kms_call (dmod_drm w1)) w1) = dmod_drm w1.
Proof.
  intros Hinit.
  assert (Hready : dmod_drm w1 ≠ 0).
  { destruct (Z.eq_dec (dmod_drm w) 0) as [Hz|Hnz].
    - destruct (gralloc_drm_create_runs P w) as (drm & wc & Hcreate & _).
      unfold drm_init in Hinit. unfold_monad.
      rewrite Hz, Z.eqb_refl, Hcreate in Hinit.
      destruct (drm =? 0) eqn:Hdrm; cbn in Hinit; [discriminate|].
      inversion Hinit. cbn. apply Z.eqb_neq. exact Hdrm.
    - rewrite (drm_init_ready P 0 w Hnz) in Hinit.
      inversion Hinit. subst w1. exact Hnz. }
  split; [exact Hready|]. split.
  - apply (drm_init_ready P 0 w1 Hready).
  - intros kms Hkms. rewrite (drm_init_ready P kms w1 Hready).
    apply Z.eqb_neq in Hkms. rewrite Hkms. split; reflexivity.
Qed.

Lemma drm_init_idempotent_witness :
  dmod_drm (with_dmod_drm 900 fresh_world) ≠ 0
  ∧ drm_init (sample_platform 0) 0 (with_dmod_drm 900 fresh_world)
    = Done 0 (with_dmod_drm 900 fresh_world)
  ∧ ∀ kms, kms ≠ 0 →
      drm_init (sample_platform 0) kms (with_dmod_drm 900 fresh_world) =
      Done (gralloc_drm_init_kms (sample_platform 0)
              (calls (with_dmod_drm 900 fresh_world))
              (dmod_drm (with_dmod_drm 900 fresh_world)))
           (with_call (init_kms_call
                         (dmod_drm (with_dmod_drm 900 fresh_world)))
              (with_dmod_drm 900 fresh_world))
      ∧ dmod_drm (with_call (init_kms_call
                               (dmod_drm (with_dmod_drm 900 fresh_world)))
                    (with_dmod_drm 900 fresh_world))
        = dmod_drm (with_dmod_drm 900 fresh_world).
Proof.
  apply (drm_init_idempotent (sample_platform 0)
           (with_dmod_drm 900 fresh_world) (with_dmod_drm 900 fresh_world)).
  reflexivity.
Defined.

(** X17. When the device cannot be created, [drm_mod_register_buffer]
    returns -EINVAL whatever the handle is, and nothing is imported: the
    registry, the bos and the handles are as before and the device stays
    NULL. *)
Theorem register_buffer_init_failure (P : platform) (w : world)
    (handle : Z) (w1 : world) :
  dmod_drm w = 0 →
  gralloc_drm_create P w = Done 0 w1 →
  drm_mod_register_buffer P handle w = Done (- EINVAL) w1
  ∧ drm_bo_handle_map w1 = drm_bo_handle_map w
  ∧ bos w1 = bos w
  ∧ handles w1 = handles w
  ∧ dmod_drm w1 = 0.
Proof.
  intros Hunready Hcreate.
  destruct (gralloc_drm_create_runs P w) as (drm & wc & Hcreate' & Hafter).
  rewrite Hcreate in Hcreate'. inversion Hcreate'. subst drm wc.
  destruct Hafter as (Hr & Hb & Hh & Hd & _).
  cbn [drm_bo_handle_map bos handles dmod_drm with_call] in Hr, Hb, Hh, Hd.
  split.
  { unfold drm_mod_register_buffer, drm_init. unfold_monad.
    rewrite Hunready, Z.eqb_refl, Hcreate. cbn.
    rewrite (with_dmod_drm_same w1 0) by congruence. reflexivity. }
  split; [exact Hr|]. split; [exact Hb|]. split; [exact Hh|]. congruence.
Qed.

Lemma register_buffer_init_failure_witness :
  drm_mod_register_buffer (sample_platform 0) 7 fresh_world
    = Done (- EINVAL) (with_call read_proc_fb_call fresh_world)
  ∧ drm_bo_handle_map (with_call read_proc_fb_call fresh_world)
    = drm_bo_handle_map fresh_world
  ∧ bos (with_call read_proc_fb_call fresh_world) = bos fresh_world
  ∧ handles (with_call read_proc_fb_call fresh_world) = handles fresh_world
  ∧ dmod_drm (with_call read_proc_fb_call fresh_world) = 0.
Proof.
  apply (register_buffer_init_failure (sample_platform 0) fresh_world 7
           (with_call read_proc_fb_call fresh_world));
    reflexivity.
Defined.

(** ** Resolving the format *)

(** X18. [gralloc_drm_resolve_format] indexes the registry with
    [operator[]] and does not test the result: for a handle that has no
    entry it obtains a NULL bo and reads [bo->drm] through it, whatever the
    backend offers. *)
Theorem resolve_format_unregistered_faults
    (drv_resolve_format : option (Z → M unit)) (w : world) (handle : Z) :
  drm_bo_handle_map w !! handle = None →
  bos w !! 0 = None →
  gralloc_drm_resolve_format drv_resolve_format handle w = Fault.
Proof.
  intros Hreg Hnull.
  unfold gralloc_drm_resolve_format, registry_index, bind, load_bo.
  rewrite Hreg. cbn [bos with_registry]. rewrite Hnull. reflexivity.
Qed.

Lemma resolve_format_unregistered_faults_witness :
  gralloc_drm_resolve_format (Some (λ _, ret tt)) 7 (unseen_world 0x23 0x30)
  = Fault.
Proof.
  apply (resolve_format_unregistered_faults (Some (λ _, ret tt))
           (unseen_world 0x23 0x30) 7); reflexivity.
Defined.

(** ** Two locks in a row *)

Lemma land_subset_trans d a b :
  Z.land d a = a → Z.land a b = b → Z.land d b = b.
Proof.
  intros Hda Hab. apply Z.bits_inj'. intros n Hn.
  rewrite Z.land_spec.
  assert (Hb : Z.testbit b n = Z.testbit a n && Z.testbit b n)
    by (rewrite <- Z.land_spec, Hab; reflexivity).
  assert (Ha : Z.testbit a n = Z.testbit d n && Z.testbit a n)
    by (rewrite <- Z.land_spec, Hda; reflexivity).
  destruct (Z.testbit d n), (Z.testbit a n), (Z.testbit b n);
    cbn in *; congruence.
Qed.

(** X19. After a first lock with usage [A] has been granted on a bo that was
    not locked, the two gates refuse a second lock with usage [B] exactly
    when [B] is not a subset of [A]: a subset of a granted usage always
    passes the declared-usage gate as well. *)
Theorem second_lock_gates (P : platform) (w : world) (bo : Z)
    (B0 : gralloc_drm_bo_t) (H : gralloc_drm_handle_t)
    (A x y wd h addr a : Z) (w1 : world) (B : Z) :
  bos w !! bo = Some B0 →
  handles w !! bo_handle B0 = Some H →
  lock_count B0 = 0 → locked_for B0 = 0 →
  gralloc_drm_bo_lock P bo A x y wd h addr w = Done (0, a) w1 →
  ∃ B1, bos w1 !! bo = Some B1
        ∧ handles w1 !! bo_handle B1 = Some H
        ∧ lock_count B1 = 1 ∧ locked_for B1 = A
        ∧ (usage_mismatch (h_usage H) B = true ∨ lock_conflict B1 B = true
           ↔ Z.land A B ≠ B)
        ∧ (Z.land A B ≠ B →
           ∀ x' y' wd' h' addr',
             gralloc_drm_bo_lock P bo B x' y' wd' h' addr' w1
             = Done (- EINVAL, addr') w1).
Proof.
  intros Hbo Hhandle Hcount Hmask Hlock.
  destruct (lock_success_inv P w bo B0 H A x y wd h addr a w1
              Hbo Hhandle Hlock) as (Hm & _ & Hcases).
  pose proof (lock_success_handles P w bo B0 H A x y wd h addr a w1
                Hbo Hhandle Hlock) as Hsame.
  rewrite lor_lor_same, Hcount, Hmask in Hcases.
  change (wrap_int (0 + 1)) with 1 in Hcases.
  rewrite Z.lor_0_l in Hcases.
  set (B1 := set_lock_state 1 A B0) in *.
  assert (Hb1 : bos w1 !! bo = Some B1).
  { destruct Hcases as [(_ & _ & ->) | (_ & _ & _ & ->)];
      cbn [bos with_bos with_call]; apply lookup_insert_eq. }
  assert (Hh1 : handles w1 !! bo_handle B1 = Some H)
    by (rewrite Hsame; exact Hhandle).
  assert (Hgates : usage_mismatch (h_usage H) B = true
                   ∨ lock_conflict B1 B = true ↔ Z.land A B ≠ B).
  { rewrite lock_conflict_true. cbn [lock_count locked_for B1 set_lock_state].
    split.
    - intros [Hmis | [_ Hne]]; [|exact Hne].
      intros Hsub. apply usage_mismatch_true in Hmis.
      destruct Hmis as [Hnot Hnospecial]. apply Hnot.
      apply (land_subset_trans _ A); [|exact Hsub].
      destruct (Z.eq_dec (Z.land (h_usage H) A) A) as [He|He]; [exact He|].
      assert (usage_mismatch (h_usage H) A = true)
        by (apply usage_mismatch_true; auto).
      congruence.
    - intros Hne. right. split; [lia | exact Hne]. }
  exists B1. split; [exact Hb1|]. split; [exact Hh1|].
  split; [reflexivity|]. split; [reflexivity|]. split; [exact Hgates|].
  intros Hne x' y' wd' h' addr'.
  apply (lock_refused P w1 bo B1 H Hb1 Hh1). right.
  apply lock_conflict_true. cbn [lock_count locked_for B1 set_lock_state].
  split; [lia | exact Hne].
Qed.

Lemma second_lock_gates_witness :
  ∃ B1, bos (with_bos (insert 100 (Bo 900 7 0 0 1 0x30 1))
               (with_call (drv_map_call 100 0 0 64 64 1)
                  (known_world 1 0x130 (Bo 900 7 0 0 0 0 1)))) !! 100
        = Some B1
        ∧ handles (with_bos (insert 100 (Bo 900 7 0 0 1 0x30 1))
                     (with_call (drv_map_call 100 0 0 64 64 1)
                        (known_world 1 0x130 (Bo 900 7 0 0 0 0 1))))
            !! bo_handle B1
          = Some (Handle 64 64 1 0x130 5 (-1) 64)
        ∧ lock_count B1 = 1 ∧ locked_for B1 = 0x30
        ∧ (usage_mismatch (h_usage (Handle 64 64 1 0x130 5 (-1) 64)) 0x100
           = true ∨ lock_conflict B1 0x100 = true
           ↔ Z.land 0x30 0x100 ≠ 0x100)
        ∧ (Z.land 0x30 0x100 ≠ 0x100 →
           ∀ x' y' wd' h' addr',
             gralloc_drm_bo_lock (sample_platform 0) 100 0x100
               x' y' wd' h' addr'
               (with_bos (insert 100 (Bo 900 7 0 0 1 0x30 1))
                  (with_call (drv_map_call 100 0 0 64 64 1)
                     (known_world 1 0x130 (Bo 900 7 0 0 0 0 1))))
             = Done (- EINVAL, addr')
                 (with_bos (insert 100 (Bo 900 7 0 0 1 0x30 1))
                    (with_call (drv_map_call 100 0 0 64 64 1)
                       (known_world 1 0x130 (Bo 900 7 0 0 0 0 1))))).
Proof.
  apply (second_lock_gates (sample_platform 0)
           (known_world 1 0x130 (Bo 900 7 0 0 0 0 1)) 100
           (Bo 900 7 0 0 0 0 1) (Handle 64 64 1 0x130 5 (-1) 64)
           0x30 0 0 64 64 0 4096 _ 0x100
           eq_refl eq_refl eq_refl eq_refl eq_refl).
Defined.
